(** * PostNews / PostNewsTrial: the feed-to-display pipeline

    A shallow embedding of the two variants of the news reader,
    [src/PostNews.py] (thumbnails fetched while the rows are built) and
    [src/PostNewsTrial.py] (one [LoadImageThread] per row), together with
    the properties of the pipeline: the feed fetcher, the thumbnail
    extraction, the image loader, the row list with its selection index,
    and the link opener.

    Python objects that the code mutates through a reference held somewhere
    else (the image [QLabel] captured by the lambda connected to
    [image_loaded]) live in a store indexed by object identity.  Signals
    that cross threads are events posted to the queue of the interaction
    thread, and every effect that leaves the process is recorded in a trace
    together with the thread that performed it. *)

From Stdlib Require Import ZArith String List Lia Bool.
From stdpp Require Import base tactics option list gmap strings pretty.

Local Open Scope Z_scope.

(** ** Python values and exceptions *)

(** An instance of a subclass of [Exception]: its class name and the text
    [str(e)] gives for it. *)
Record exn := Exception { exn_class : string; exn_text : string }.

Definition str (e : exn) : string := exn_text e.

Definition KeyError (key : string) : exn :=
  Exception "KeyError" ("'" +:+ key +:+ "'").

Definition IndexError : exn :=
  Exception "IndexError" "list index out of range".

Definition RuntimeError (cls : string) : exn :=
  Exception "RuntimeError"
    ("wrapped C/C++ object of type " +:+ cls +:+ " has been deleted").

Definition TypeError (text : string) : exn := Exception "TypeError" text.

(** Not a Python exception: the message of Qt's [qFatal] when the object
    of a [QThread] is destroyed while its thread runs.  Qt then aborts the
    process.  A computation that ends with this value has ended the
    program; it arises in [create_news_widget] of PostNewsTrial.py only,
    and no [try] of the program is around a call of that function. *)
Definition QThread_destroyed : exn :=
  Exception "qFatal" "QThread: Destroyed while thread is still running".

(** The result of evaluating an expression: a value or a raised exception. *)
Inductive outcome (A : Type) : Type :=
| Ret (a : A)
| Raise (e : exn).
Arguments Ret {A} a.
Arguments Raise {A} e.

(** Truth value of a [str], and of a value that is a [str] or [None]. *)
Definition truthy (s : string) : bool :=
  match s with EmptyString => false | String _ _ => true end.

Definition truthy_opt (o : option string) : bool :=
  match o with None => false | Some s => truthy s end.

(** [l[i]] on a Python list: negative indices count from the end, anything
    outside [-len, len) raises [IndexError]. *)
Definition py_getitem {A} (l : list A) (i : Z) : outcome A :=
  let n := Z.of_nat (length l) in
  let j := if i <? 0 then i + n else i in
  if (0 <=? j) && (j <? n) then
    match l !! Z.to_nat j with
    | Some x => Ret x
    | None => Raise IndexError
    end
  else Raise IndexError.

(** ** The data of the feed *)

Record NewsItem := {
  item_title : string;
  item_link : string;
  item_image_url : option string
}.

(** A feedparser entry.  Reading an attribute the entry does not have
    raises [AttributeError], so each attribute read is an [outcome]. *)
Record Entry := {
  entry_title : outcome string;
  entry_link : outcome string;
  entry_description : outcome string
}.

(** What [feedparser.parse] returns.  The code reads [entries] and nothing
    else; a download or a parse that failed is reported by the library in
    the fields [bozo] and [bozo_exception] of a result without entries,
    not by an exception. *)
Record Feed := { entries : list Entry }.

Definition FEED_URL : string := "https://www.ilpost.it/feed".

(** The tree BeautifulSoup builds from markup. *)
#[warnings="-register-all"]
Inductive node : Type :=
| NavigableString (s : string)
| Tag (name : string) (attrs : gmap string string) (contents : list node).

(** [find(name)]: the first tag of that name among the descendants, in
    document order. *)
Fixpoint find_in (name : string) (n : node) : option node :=
  match n with
  | NavigableString _ => None
  | Tag nm _ cs =>
      if decide (nm = name) then Some n
      else
        (fix descend (l : list node) : option node :=
           match l with
           | [] => None
           | c :: l' =>
               match find_in name c with
               | Some t => Some t
               | None => descend l'
               end
           end) cs
  end.

Fixpoint find (name : string) (soup : list node) : option node :=
  match soup with
  | [] => None
  | c :: soup' =>
      match find_in name c with
      | Some t => Some t
      | None => find name soup'
      end
  end.

(** The nodes of a tree, and of a document, in document order. *)
Fixpoint descendants (n : node) : list node :=
  match n with
  | NavigableString _ => [n]
  | Tag _ _ cs =>
      n :: (fix all (l : list node) : list node :=
              match l with
              | [] => []
              | c :: l' => descendants c ++ all l'
              end) cs
  end.

Fixpoint document_order (soup : list node) : list node :=
  match soup with
  | [] => []
  | c :: soup' => descendants c ++ document_order soup'
  end.

Definition is_tag (name : string) (n : node) : Prop :=
  match n with
  | Tag nm _ _ => nm = name
  | NavigableString _ => False
  end.

Global Instance is_tag_dec name n : Decision (is_tag name n).
Proof. destruct n; simpl; apply _. Defined.

(** [tag[key]]: the attribute, or [KeyError]. *)
Definition tag_getitem (t : node) (key : string) : outcome string :=
  match t with
  | Tag _ attrs _ =>
      match attrs !! key with
      | Some v => Ret v
      | None => Raise (KeyError key)
      end
  | NavigableString _ => Raise (TypeError "string indices must be integers")
  end.

(** ** Qt values *)

(** A pixmap, as far as the code looks at it: its size.  [QPixmap()] is the
    null pixmap. *)
Record QPixmap := { pm_width : Z; pm_height : Z }.

Definition QPixmap_null : QPixmap := {| pm_width := 0; pm_height := 0 |}.

Definition isNull (p : QPixmap) : bool :=
  (pm_width p <=? 0) || (pm_height p <=? 0).

(** [QSize.scaled(target, Qt.KeepAspectRatio)], integer arithmetic as in
    Qt. *)
Definition QSize_scaled (w h tw th : Z) : Z * Z :=
  if (w =? 0) || (h =? 0) then (tw, th)
  else
    let rw := (th * w) ÷ h in
    if rw <=? tw then (rw, th) else (tw, (tw * h) ÷ w).

(** [pixmap.scaled(tw, th, Qt.KeepAspectRatio)]. *)
Definition scaled (p : QPixmap) (tw th : Z) : QPixmap :=
  if isNull p then QPixmap_null
  else if (tw <=? 0) || (th <=? 0) then QPixmap_null
  else
    let '(nw, nh) := QSize_scaled (pm_width p) (pm_height p) tw th in
    {| pm_width := Z.max nw 1; pm_height := Z.max nh 1 |}.

Inductive label_content :=
| NoContent
| Text (s : string)
| Pixmap (p : QPixmap).

(** The image label of a row.  [lb_dblclick] is the link its
    [mouseDoubleClickEvent] lambda passes to [open_link], once installed;
    [lb_alive] turns false when the deferred deletion of the row has run. *)
Record QLabel := {
  lb_content : label_content;
  lb_dblclick : option string;
  lb_alive : bool
}.

(** A row.  The title label is owned by the row alone; the image label is
    a reference into the store. *)
Record QWidget := {
  widget_link : string;
  widget_title : string;
  widget_title_dblclick : string;
  widget_image_label : nat;
  widget_styleSheet : string
}.

Record Response := { status_code : Z; content : list Byte.byte }.

(** A started [QThread] that has not run yet.  A [LoadImageThread] carries
    its two fields and the label captured by the lambda connected to its
    [image_loaded] signal. *)
Inductive QThread :=
| FetchNewsThread
| LoadImageThread (image_url : option string) (link : string) (label : nat).

Global Instance QThread_eq_dec : EqDecision QThread.
Proof. solve_decision. Defined.

Inductive key := Key_Down | Key_Up | Key_Other.

(** What the event loop of the interaction thread hands to the
    application. *)
Inductive event :=
| NewsFetched (news_items : list NewsItem)
| ImageLoaded (label : nat) (image : QPixmap) (link : string)
| KeyPress (k : key)
| TitleDoubleClick (row : nat)
| ImageDoubleClick (row : nat)
| DeferredDelete (labels : list nat).

Inductive thread := UIThread | WorkerThread.

(** Effects that leave the process. *)
Inductive effect :=
| NetFeed (url : string)
| NetGet (url : string)
| Print (text : string)
| BrowserOpen (link : string)
| EnsureVisible (row : QWidget).

Definition is_network (e : effect) : bool :=
  match e with
  | NetFeed _ | NetGet _ => true
  | _ => false
  end.

(** ** The world *)

Record World := {
  labels : gmap nat QLabel;
  next_label : nat;
  news_widgets : list QWidget;
  selected_index : Z;
  threads : list QThread;
  queue : list event;
  running_on : thread;
  clock : nat;
  trace : list (thread * effect)
}.

(** What the code does not contain: the network and the two decoders.  The
    network answers depend on the moment of the request, the decoders are
    functions of their input.  [decode_image] gives the size of the picture
    the data holds, if it holds one. *)
Record Env := {
  feedparser_parse : nat → string → outcome Feed;
  requests_get : nat → string → outcome Response;
  BeautifulSoup : string → outcome (list node);
  decode_image : list Byte.byte → option (positive * positive)
}.

(** [image = QPixmap(); image.loadFromData(data)]: the pixmap stays null when
    the data cannot be decoded. *)
Definition loadFromData (env : Env) (data : list Byte.byte) : QPixmap :=
  match decode_image env data with
  | Some (w, h) => {| pm_width := Z.pos w; pm_height := Z.pos h |}
  | None => QPixmap_null
  end.

(** ** A state and exception monad over the world *)

Definition Py (A : Type) : Type := World → outcome A * World.

Definition ret {A} (a : A) : Py A := λ w, (Ret a, w).

Definition bind {A B} (m : Py A) (k : A → Py B) : Py B :=
  λ w, match m w with
       | (Ret a, w') => k a w'
       | (Raise e, w') => (Raise e, w')
       end.

Notation "'let*' x ':=' m 'in' k" := (bind m (λ x, k))
  (at level 10, x name, m at level 100, k at level 200,
   format "'let*'  x  ':='  m  'in'  '//' k").
Notation "m '>>' k" := (bind m (λ _, k))
  (at level 100, k at level 200, right associativity).

Definition raise {A} (e : exn) : Py A := λ w, (Raise e, w).

Definition lift {A} (o : outcome A) : Py A := λ w, (o, w).

(** [try: body except Exception as e: handler e]: what [body] did to the
    world before it raised stays done. *)
Definition try_except {A} (body : Py A) (handler : exn → Py A) : Py A :=
  λ w, match body w with
       | (Ret a, w') => (Ret a, w')
       | (Raise e, w') => handler e w'
       end.

(** [for x in xs: body x] *)
Fixpoint for_each {A} (xs : list A) (body : A → Py unit) : Py unit :=
  match xs with
  | [] => ret tt
  | x :: xs' => body x >> for_each xs' body
  end.

(** A loop that threads a local variable through its iterations. *)
Fixpoint for_fold {A S} (xs : list A) (s : S) (body : A → S → Py S) : Py S :=
  match xs with
  | [] => ret s
  | x :: xs' => let* s' := body x s in for_fold xs' s' body
  end.

Definition get {A} (f : World → A) : Py A := λ w, (Ret (f w), w).

Definition modify (f : World → World) : Py unit := λ w, (Ret tt, f w).

(** Field updates. *)
Definition set_labels (f : gmap nat QLabel → gmap nat QLabel) (w : World) : World :=
  {| labels := f (labels w); next_label := next_label w;
     news_widgets := news_widgets w; selected_index := selected_index w;
     threads := threads w; queue := queue w; running_on := running_on w;
     clock := clock w; trace := trace w |}.

Definition set_next_label (n : nat) (w : World) : World :=
  {| labels := labels w; next_label := n;
     news_widgets := news_widgets w; selected_index := selected_index w;
     threads := threads w; queue := queue w; running_on := running_on w;
     clock := clock w; trace := trace w |}.

Definition set_news_widgets (f : list QWidget → list QWidget) (w : World) : World :=
  {| labels := labels w; next_label := next_label w;
     news_widgets := f (news_widgets w); selected_index := selected_index w;
     threads := threads w; queue := queue w; running_on := running_on w;
     clock := clock w; trace := trace w |}.

Definition set_selected_index (i : Z) (w : World) : World :=
  {| labels := labels w; next_label := next_label w;
     news_widgets := news_widgets w; selected_index := i;
     threads := threads w; queue := queue w; running_on := running_on w;
     clock := clock w; trace := trace w |}.

Definition set_threads (f : list QThread → list QThread) (w : World) : World :=
  {| labels := labels w; next_label := next_label w;
     news_widgets := news_widgets w; selected_index := selected_index w;
     threads := f (threads w); queue := queue w; running_on := running_on w;
     clock := clock w; trace := trace w |}.

Definition set_queue (f : list event → list event) (w : World) : World :=
  {| labels := labels w; next_label := next_label w;
     news_widgets := news_widgets w; selected_index := selected_index w;
     threads := threads w; queue := f (queue w); running_on := running_on w;
     clock := clock w; trace := trace w |}.

Definition set_running_on (t : thread) (w : World) : World :=
  {| labels := labels w; next_label := next_label w;
     news_widgets := news_widgets w; selected_index := selected_index w;
     threads := threads w; queue := queue w; running_on := t;
     clock := clock w; trace := trace w |}.

Definition set_clock (n : nat) (w : World) : World :=
  {| labels := labels w; next_label := next_label w;
     news_widgets := news_widgets w; selected_index := selected_index w;
     threads := threads w; queue := queue w; running_on := running_on w;
     clock := n; trace := trace w |}.

Definition set_trace (f : list (thread * effect) → list (thread * effect))
    (w : World) : World :=
  {| labels := labels w; next_label := next_label w;
     news_widgets := news_widgets w; selected_index := selected_index w;
     threads := threads w; queue := queue w; running_on := running_on w;
     clock := clock w; trace := f (trace w) |}.

(** ** Primitives *)

(** An effect is recorded with the thread that performs it. *)
Definition perform (e : effect) : Py unit :=
  modify (λ w, set_trace (λ tr, tr ++ [(running_on w, e)]) w).

Definition print (text : string) : Py unit := perform (Print text).

(** A signal emitted towards the interaction thread, or a deferred
    deletion: an event appended to its queue. *)
Definition post (ev : event) : Py unit := modify (set_queue (λ q, q ++ [ev])).

Definition QThread_start (th : QThread) : Py unit :=
  modify (set_threads (λ ts, ts ++ [th])).

(** The last reference to the Python object of a thread goes away, and
    with it the C++ object.  The destructor of a [QThread] that was started
    and has not finished aborts the process. *)
Definition QThread_del (th : QThread) : Py unit :=
  λ w, if decide (th ∈ threads w) then (Raise QThread_destroyed, w)
       else (Ret tt, w).

(** [QLabel()]: a new object, distinct from every other one. *)
Definition QLabel_new : Py nat :=
  let* l := get next_label in
  modify (set_labels
            (insert l {| lb_content := NoContent; lb_dblclick := None;
                         lb_alive := true |})) >>
  modify (set_next_label (S l)) >>
  ret l.

(** A method call on a label: PyQt raises [RuntimeError] once the C++
    object is gone. *)
Definition QLabel_call (l : nat) (f : QLabel → QLabel) : Py unit :=
  λ w, match labels w !! l with
       | Some lb =>
           if lb_alive lb then (Ret tt, set_labels (insert l (f lb)) w)
           else (Raise (RuntimeError "QLabel"), w)
       | None => (Raise (RuntimeError "QLabel"), w)
       end.

Definition setText (l : nat) (s : string) : Py unit :=
  QLabel_call l (λ lb, {| lb_content := Text s; lb_dblclick := lb_dblclick lb;
                          lb_alive := lb_alive lb |}).

Definition setPixmap (l : nat) (p : QPixmap) : Py unit :=
  QLabel_call l (λ lb, {| lb_content := Pixmap p; lb_dblclick := lb_dblclick lb;
                          lb_alive := lb_alive lb |}).

(** [label.mouseDoubleClickEvent = lambda event: self.open_link(link)]: an
    attribute of the Python object, which is set whether or not the C++
    object is still there. *)
Definition set_mouseDoubleClickEvent (l : nat) (link : string) : Py unit :=
  modify (set_labels
            (alter (λ lb, {| lb_content := lb_content lb;
                             lb_dblclick := Some link;
                             lb_alive := lb_alive lb |}) l)).

Definition setStyleSheet (s : string) (widget : QWidget) : QWidget :=
  {| widget_link := widget_link widget; widget_title := widget_title widget;
     widget_title_dblclick := widget_title_dblclick widget;
     widget_image_label := widget_image_label widget;
     widget_styleSheet := s |}.

(** [widget.deleteLater()]: the deletion of the row and of its children is
    an event of its own, handled when the loop gets to it. *)
Definition deleteLater (widget : QWidget) : Py unit :=
  post (DeferredDelete [widget_image_label widget]).

Definition destroy (ls : list nat) (m : gmap nat QLabel) : gmap nat QLabel :=
  foldr (λ l m, alter (λ lb, {| lb_content := lb_content lb;
                                lb_dblclick := lb_dblclick lb;
                                lb_alive := false |}) l m) m ls.

(** Runs [m] as the given thread. *)
Definition on_thread {A} (t : thread) (m : Py A) : Py A :=
  λ w, let '(r, w') := m (set_running_on t w) in
       (r, set_running_on (running_on w) w').

Definition item_of_error (e : exn) : NewsItem :=
  {| item_title := "Error fetching news: " +:+ str e;
     item_link := "";
     item_image_url := None |}.

(** ** The code shared by the two files *)

Section Program.
Variable env : Env.

Definition net_feed (url : string) : Py Feed :=
  perform (NetFeed url) >>
  let* t := get clock in
  modify (set_clock (S t)) >>
  lift (feedparser_parse env t url).

Definition net_get (url : string) : Py Response :=
  perform (NetGet url) >>
  let* t := get clock in
  modify (set_clock (S t)) >>
  lift (requests_get env t url).

(** [img_tag['src'] if img_tag else None] after
    [soup = BeautifulSoup(entry.description, 'html.parser')] and
    [img_tag = soup.find('img')]. *)
Definition extract_image_url (entry : Entry) : Py (option string) :=
  let* description := lift (entry_description entry) in
  let* soup := lift (BeautifulSoup env description) in
  match find "img" soup with
  | Some img_tag =>
      let* src := lift (tag_getitem img_tag "src") in
      ret (Some src)
  | None => ret None
  end.

(** PostNews.py:145-148, PostNewsTrial.py:176-179 *)
Definition open_link (link : string) : Py unit :=
  if truthy link then perform (BrowserOpen link) else ret tt.

(** PostNews.py:150-156, PostNewsTrial.py:181-187 *)
Definition update_highlight : Py unit :=
  let* sel := get selected_index in
  modify (set_news_widgets
            (imap (λ i widget,
                     if Z.of_nat i =? sel
                     then setStyleSheet "background-color: lightblue;" widget
                     else setStyleSheet "background-color: none;" widget))).

(** PostNews.py:171-174, PostNewsTrial.py:202-205 *)
Definition scroll_to_selected : Py unit :=
  let* ws := get news_widgets in
  let* sel := get selected_index in
  let* selected_widget := lift (py_getitem ws sel) in
  perform (EnsureVisible selected_widget).

(** PostNews.py:158-169, PostNewsTrial.py:189-200 *)
Definition keyPressEvent (k : key) : Py unit :=
  match k with
  | Key_Down =>
      let* sel := get selected_index in
      let* ws := get news_widgets in
      if sel <? Z.of_nat (length ws) - 1 then
        modify (set_selected_index (sel + 1)) >>
        update_highlight >>
        scroll_to_selected
      else ret tt
  | Key_Up =>
      let* sel := get selected_index in
      if sel >? 0 then
        modify (set_selected_index (sel - 1)) >>
        update_highlight >>
        scroll_to_selected
      else ret tt
  | Key_Other => ret tt
  end.

Section Fetcher.
(** One iteration of the loop over the entries; it differs between the
    two files. *)
Variable add_entry : Entry → list NewsItem → Py (list NewsItem).

(** PostNews.py:16-34, PostNewsTrial.py:16-38: the suite of the
    [try]. *)
Definition fetch_body : Py unit :=
  let* feed := net_feed FEED_URL in
  let* news_items := for_fold (entries feed) [] add_entry in
  post (NewsFetched news_items).

(** PostNews.py:14-40, PostNewsTrial.py:14-44 *)
Definition FetchNewsThread_run : Py unit :=
  try_except fetch_body (λ e, post (NewsFetched [item_of_error e])).
End Fetcher.

Section NewsApp.
(** What differs between the two files. *)
Variable FetchNewsThread_run : Py unit.
Variable create_news_widget : NewsItem → Py QWidget.
Variable on_image_loaded : nat → QPixmap → string → Py unit.
Variable LoadImageThread_run : option string → string → nat → Py unit.

(** PostNews.py:82-97, PostNewsTrial.py:112-127 *)
Definition display_news (news_items : list NewsItem) : Py unit :=
  let* old := get news_widgets in
  for_each old (λ widget, deleteLater widget) >>
  modify (set_news_widgets (λ _, [])) >>
  for_each news_items
    (λ item,
       let* news_widget := create_news_widget item in
       modify (set_news_widgets (λ ws, ws ++ [news_widget]))) >>
  let* ws := get news_widgets in
  match ws with
  | [] => ret tt
  | _ :: _ => modify (set_selected_index 0) >> update_highlight
  end.

(** PostNews.py:77-80, PostNewsTrial.py:106-110 *)
Definition fetch_news : Py unit := QThread_start FetchNewsThread.

(** The part of [initUI] that is not layout. *)
Definition initUI : Py unit :=
  modify (set_news_widgets (λ _, [])) >>
  modify (set_selected_index 0) >>
  fetch_news.

Definition QThread_run (th : QThread) : Py unit :=
  match th with
  | FetchNewsThread => FetchNewsThread_run
  | LoadImageThread image_url link label =>
      LoadImageThread_run image_url link label
  end.

(** The slot or event handler an event of the queue reaches. *)
Definition handle (ev : event) : Py unit :=
  match ev with
  | NewsFetched news_items => display_news news_items
  | ImageLoaded label image link => on_image_loaded label image link
  | KeyPress k => keyPressEvent k
  | TitleDoubleClick row =>
      let* ws := get news_widgets in
      match ws !! row with
      | Some widget => open_link (widget_title_dblclick widget)
      | None => ret tt
      end
  | ImageDoubleClick row =>
      let* ws := get news_widgets in
      let* ls := get labels in
      match ws !! row with
      | Some widget =>
          match ls !! widget_image_label widget with
          | Some lb =>
              match lb_dblclick lb with
              | Some link => open_link link
              | None => ret tt
              end
          | None => ret tt
          end
      | None => ret tt
      end
  | DeferredDelete ls => modify (set_labels (destroy ls))
  end.

(** One move of the scheduler. *)
Inductive sched :=
| RunThread (k : nat)
| Dispatch
| Post (ev : event).

Definition step (s : sched) : Py unit :=
  match s with
  | RunThread k =>
      let* ts := get threads in
      match ts !! k with
      | Some th =>
          modify (set_threads (delete k)) >>
          on_thread WorkerThread (QThread_run th)
      | None => ret tt
      end
  | Dispatch =>
      let* q := get queue in
      match q with
      | [] => ret tt
      | ev :: q' =>
          modify (set_queue (λ _, q')) >>
          on_thread UIThread (handle ev)
      end
  | Post ev => post ev
  end.

Definition exec (ss : list sched) : Py unit := for_each ss step.

Definition main (ss : list sched) : Py unit :=
  on_thread UIThread initUI >> exec ss.

(** The interaction thread handling a sequence of events, one after
    the other. *)
Definition handle_all (evs : list event) : Py unit :=
  for_each evs (λ ev, on_thread UIThread (handle ev)).
End NewsApp.
End Program.

(** ** Observations *)

(** The events a computation appends to the queue. *)
Definition emitted {A} (m : Py A) (w : World) : list event :=
  drop (length (queue w)) (queue (m w).2).

Definition lightblue : string := "background-color: lightblue;".
Definition none_colour : string := "background-color: none;".

(** The row [create_news_widget] builds for an item, around the image label
    it allocated. *)
Definition row_of (item : NewsItem) (label : nat) : QWidget :=
  {| widget_link := item_link item; widget_title := item_title item;
     widget_title_dblclick := item_link item;
     widget_image_label := label;
     widget_styleSheet := "" |}.

(** The row at position [i] after [update_highlight] with selection
    [sel]. *)
Definition highlighted (sel : Z) (i : nat) (widget : QWidget) : QWidget :=
  if Z.of_nat i =? sel then setStyleSheet lightblue widget
  else setStyleSheet none_colour widget.

(** The rows of [w'] display [news_items]: one row per item in the same
    order, with the title and the link of its item; the selection is 0 and
    the first row alone is highlighted, unless there is no row, when the
    selection is what it was in [w]. *)
Definition shows (news_items : list NewsItem) (w w' : World) : Prop :=
  length (news_widgets w') = length news_items
  ∧ (λ r, (widget_title r, widget_link r)) <$> news_widgets w'
    = (λ item, (item_title item, item_link item)) <$> news_items
  ∧ selected_index w'
    = match news_items with [] => selected_index w | _ :: _ => 0 end
  ∧ widget_styleSheet <$> news_widgets w'
    = imap (λ i _, if decide (i = 0%nat) then lightblue else none_colour)
           news_items.

Definition boot : World :=
  {| labels := ∅; next_label := 0%nat; news_widgets := [];
     selected_index := 0; threads := []; queue := [];
     running_on := UIThread; clock := 0%nat; trace := [] |}.

(** ** src/PostNews.py: thumbnails fetched while the rows are built *)

Module PostNews.
Section WithEnv.
Variable env : Env.

(** PostNews.py:19-33, one iteration of the loop over the entries. *)
Definition add_entry (entry : Entry) (news_items : list NewsItem)
  : Py (list NewsItem) :=
  let* title := lift (entry_title entry) in
  let* link := lift (entry_link entry) in
  let* image_url := extract_image_url env entry in
  ret (news_items ++ [ {| item_title := title;
                          item_link := link;
                          item_image_url := image_url |} ]).

Definition fetch_body : Py unit := fetch_body env add_entry.

(** PostNews.py:14-40 *)
Definition FetchNewsThread_run : Py unit :=
  FetchNewsThread_run env add_entry.

(** PostNews.py:99-143 *)
Definition create_news_widget (news_item : NewsItem) : Py QWidget :=
  let* image_label := QLabel_new in
  (if truthy_opt (item_image_url news_item) then
     try_except
       (let* response :=
          net_get env (default "" (item_image_url news_item)) in
        if status_code response =? 200 then
          let image := loadFromData env (content response) in
          setPixmap image_label (scaled image 100 100) >>
          set_mouseDoubleClickEvent image_label (item_link news_item)
        else
          print ("Image request failed with status code "
                 +:+ pretty (status_code response)))
       (λ e, print ("Failed to load image: " +:+ str e))
   else setText image_label "No image available") >>
  ret {| widget_link := item_link news_item;
         widget_title := item_title news_item;
         widget_title_dblclick := item_link news_item;
         widget_image_label := image_label;
         widget_styleSheet := "" |}.

(** This file has no [LoadImageThread] and no [image_loaded] signal. *)
Definition no_image_signal (_ : nat) (_ : QPixmap) (_ : string) : Py unit :=
  ret tt.
Definition no_image_thread (_ : option string) (_ : string) (_ : nat)
  : Py unit := ret tt.

Definition display_news : list NewsItem → Py unit :=
  display_news create_news_widget.
Definition handle : event → Py unit :=
  handle create_news_widget no_image_signal.
Definition handle_all : list event → Py unit :=
  handle_all create_news_widget no_image_signal.
Definition main : list sched → Py unit :=
  main FetchNewsThread_run create_news_widget no_image_signal
    no_image_thread.
End WithEnv.
End PostNews.

(** ** src/PostNewsTrial.py: one image thread per row *)

Module PostNewsTrial.
Section WithEnv.
Variable env : Env.

(** PostNewsTrial.py:19-37, one iteration of the loop over the
    entries. *)
Definition add_entry (entry : Entry) (news_items : list NewsItem)
  : Py (list NewsItem) :=
  let* title := lift (entry_title entry) in
  let* link := lift (entry_link entry) in
  let* image_url :=
    try_except
      (extract_image_url env entry)
      (λ e, print ("Error parsing description: " +:+ str e) >>
            ret None) in
  ret (news_items ++ [ {| item_title := title;
                          item_link := link;
                          item_image_url := image_url |} ]).

Definition fetch_body : Py unit := fetch_body env add_entry.

(** PostNewsTrial.py:14-44 *)
Definition FetchNewsThread_run : Py unit :=
  FetchNewsThread_run env add_entry.

(** PostNewsTrial.py:54-69; [label] is the label of the lambda
    connected to [image_loaded], which receives what is emitted. *)
Definition LoadImageThread_run (image_url : option string) (link : string)
    (label : nat) : Py unit :=
  try_except
    (if truthy_opt image_url then
       let* response := net_get env (default "" image_url) in
       if status_code response =? 200 then
         let image := loadFromData env (content response) in
         post (ImageLoaded label image link)
       else
         print ("Image request failed with status code "
                +:+ pretty (status_code response)) >>
         post (ImageLoaded label QPixmap_null link)
     else post (ImageLoaded label QPixmap_null link))
    (λ e, print ("Failed to load image: " +:+ str e) >>
          post (ImageLoaded label QPixmap_null link)).

(** PostNewsTrial.py:168-174 *)
Definition set_image (label : nat) (image : QPixmap) (link : string)
  : Py unit :=
  if negb (isNull image) then
    setPixmap label (scaled image 100 100) >>
    set_mouseDoubleClickEvent label link
  else setText label "No image available".

(** PostNewsTrial.py:129-166.  The thread object is referred to by the
    local variable [load_image_thread] alone (lines 161-164; the feed
    thread is kept in [self.thread], line 107), and the two connections
    do not keep it: at [return widget] the variable goes out of scope,
    right after [start()]. *)
Definition create_news_widget (news_item : NewsItem) : Py QWidget :=
  let* image_label := QLabel_new in
  setText image_label "Loading image..." >>
  let widget := {| widget_link := item_link news_item;
                   widget_title := item_title news_item;
                   widget_title_dblclick := item_link news_item;
                   widget_image_label := image_label;
                   widget_styleSheet := "" |} in
  let load_image_thread :=
    LoadImageThread (item_image_url news_item) (item_link news_item)
      image_label in
  QThread_start load_image_thread >>
  QThread_del load_image_thread >>
  ret widget.

Definition display_news : list NewsItem → Py unit :=
  display_news create_news_widget.
Definition handle : event → Py unit :=
  handle create_news_widget set_image.
Definition handle_all : list event → Py unit :=
  handle_all create_news_widget set_image.
Definition step : sched → Py unit :=
  step FetchNewsThread_run create_news_widget set_image
    LoadImageThread_run.
Definition main : list sched → Py unit :=
  main FetchNewsThread_run create_news_widget set_image
    LoadImageThread_run.
End WithEnv.
End PostNewsTrial.

(** ** The two files side by side *)

Inductive variant := PostNews_py | PostNewsTrial_py.

Definition fetch_body_of (v : variant) (env : Env) : Py unit :=
  match v with
  | PostNews_py => PostNews.fetch_body env
  | PostNewsTrial_py => PostNewsTrial.fetch_body env
  end.

Definition FetchNewsThread_run_of (v : variant) (env : Env) : Py unit :=
  match v with
  | PostNews_py => PostNews.FetchNewsThread_run env
  | PostNewsTrial_py => PostNewsTrial.FetchNewsThread_run env
  end.

Definition display_news_of (v : variant) (env : Env)
  : list NewsItem → Py unit :=
  match v with
  | PostNews_py => PostNews.display_news env
  | PostNewsTrial_py => PostNewsTrial.display_news
  end.

Definition handle_of (v : variant) (env : Env) : event → Py unit :=
  match v with
  | PostNews_py => PostNews.handle env
  | PostNewsTrial_py => PostNewsTrial.handle
  end.

Definition handle_all_of (v : variant) (env : Env) : list event → Py unit :=
  match v with
  | PostNews_py => PostNews.handle_all env
  | PostNewsTrial_py => PostNewsTrial.handle_all
  end.

Definition main_of (v : variant) (env : Env) : list sched → Py unit :=
  match v with
  | PostNews_py => PostNews.main env
  | PostNewsTrial_py => PostNewsTrial.main env
  end.

(** ** What an image thread is answered *)

(** The four ways the load of the picture at [image_url], requested at time
    [t], does not give a picture: no URL, a transport error, a status other
    than 200, data that does not decode. *)
Definition load_fails (env : Env) (t : nat) (image_url : option string) : Prop :=
  truthy_opt image_url = false
  ∨ (∃ e, requests_get env t (default "" image_url) = Raise e)
  ∨ (∃ response,
       requests_get env t (default "" image_url) = Ret response
       ∧ status_code response ≠ 200)
  ∨ (∃ response,
       requests_get env t (default "" image_url) = Ret response
       ∧ status_code response = 200
       ∧ decode_image env (content response) = None).

(** The load gives a picture of [pw] by [ph] pixels. *)
Definition load_succeeds (env : Env) (t : nat) (image_url : option string)
    (pw ph : positive) : Prop :=
  truthy_opt image_url = true
  ∧ ∃ response,
      requests_get env t (default "" image_url) = Ret response
      ∧ status_code response = 200
      ∧ decode_image env (content response) = Some (pw, ph).

(** [p] fits the 100 by 100 bound, touches it in one direction, and has
    the proportions of a picture of [w] by [h] pixels as nearly as whole
    pixels allow. *)
Definition thumbnail_of (w h : Z) (p : QPixmap) : Prop :=
  1 ≤ pm_width p ≤ 100
  ∧ 1 ≤ pm_height p ≤ 100
  ∧ (pm_width p = 100 ∨ pm_height p = 100)
  ∧ Z.abs (pm_width p * h - pm_height p * w) < Z.max w h.

(** ** What the environment does *)






(** ** The selection and the rows *)

(** The selection is an index of the row list, or it is 0 and there is no
    row. *)
Definition selection_valid (w : World) : Prop :=
  (news_widgets w = [] ∧ selected_index w = 0)
  ∨ 0 ≤ selected_index w < Z.of_nat (length (news_widgets w)).

(** ** Which thread talks to the network *)

(** Every request to the network in the trace was made by a worker. *)
Definition network_off_ui (tr : list (thread * effect)) : Prop :=
  Forall (λ te, is_network te.2 = true → te.1 = WorkerThread) tr.

(** The feed was requested by a worker, every image by the interaction
    thread. *)
Definition images_on_ui (tr : list (thread * effect)) : Prop :=
  Forall (λ te, match te.2 with
                | NetFeed _ => te.1 = WorkerThread
                | NetGet _ => te.1 = UIThread
                | _ => True
                end) tr.

(** ** Notions the proofs use *)

(** A relation between the world before and the world after that every
    step of a computation respects is respected by the computation. *)
Definition preserves {A} (R : relation World) (m : Py A) : Prop :=
  ∀ w, R w (m w).2.

(** What [create_news_widget] of PostNews.py does to the window: it
    returns the row of the item around a new image label, and leaves the
    rows, the selection and the labels that exist as they are. *)
Definition creates_row (create : NewsItem → Py QWidget) : Prop :=
  ∀ item w, ∃ w',
    create item w
    = (Ret {| widget_link := item_link item; widget_title := item_title item;
              widget_title_dblclick := item_link item;
              widget_image_label := next_label w;
              widget_styleSheet := "" |}, w')
    ∧ news_widgets w' = news_widgets w
    ∧ selected_index w' = selected_index w
    ∧ next_label w' = S (next_label w)
    ∧ running_on w' = running_on w
    ∧ (∀ l, (l < next_label w)%nat → labels w' !! l = labels w !! l).

(** The item an entry gives when nothing raises. *)
Definition from_entry (entry : Entry) (item : NewsItem) : Prop :=
  entry_title entry = Ret (item_title item)
  ∧ entry_link entry = Ret (item_link item).

(** What the two loop bodies have in common: they post nothing, and when
    they return they have appended one item made from the entry. *)
Definition adds_one (add : Entry → list NewsItem → Py (list NewsItem)) : Prop :=
  ∀ entry acc w,
    queue (add entry acc w).2 = queue w
    ∧ ∀ items, (add entry acc w).1 = Ret items →
               ∃ item, items = acc ++ [item] ∧ from_entry entry item.

(** What the thumbnail extraction of an entry evaluates to. *)
Definition image_url_of (env : Env) (entry : Entry) : outcome (option string) :=
  (extract_image_url env entry boot).1.

(** The pixmap the thread emits. *)
Definition loaded (env : Env) (t : nat) (image_url : option string) : QPixmap :=
  if truthy_opt image_url then
    match requests_get env t (default "" image_url) with
    | Ret response =>
        if status_code response =? 200
        then loadFromData env (content response)
        else QPixmap_null
    | Raise _ => QPixmap_null
    end
  else QPixmap_null.

(** The computation keeps its thread, and the effects it adds to the trace
    are recorded for that thread and satisfy [Q]. *)
Definition adds (Q : effect → Prop) : relation World :=
  λ w w', running_on w' = running_on w
          ∧ ∃ tr, trace w' = trace w ++ tr
                  ∧ Forall (λ te, te.1 = running_on w ∧ Q te.2) tr.

(** The trace grows by effects that satisfy [G]. *)
Definition grows (G : thread * effect → Prop) : relation World :=
  λ w w', ∃ tr, trace w' = trace w ++ tr ∧ Forall G tr.

(** An effect other than the request for the feed, and other than the
    request for a picture. *)
Definition not_feed (e : effect) : Prop :=
  match e with NetFeed _ => False | _ => True end.

Definition not_get (e : effect) : Prop :=
  match e with NetGet _ => False | _ => True end.

(** ** Sample inputs *)

Module Samples.
Definition png : list Byte.byte := [Byte.x89; Byte.x50; Byte.x4e; Byte.x47].

(** A network where the feed is [feed], every image request is answered
    by [response], markup is parsed by [parse], and image data decodes to
    a 640x480 picture exactly when it starts with the first byte of
    [png]. *)
Definition env_of (feed : outcome Feed) (response : outcome Response)
    (parse : string → outcome (list node)) : Env :=
  {| feedparser_parse := λ _ _, feed;
     requests_get := λ _ _, response;
     BeautifulSoup := parse;
     decode_image := λ data,
       match data with
       | Byte.x89 :: _ => Some (640%positive, 480%positive)
       | _ => None
       end |}.

(** Markup of three kinds and the trees html.parser builds for them. *)
Definition with_src : string := "<p><img src='http://i/1.jpg'>text</p>".
Definition without_src : string := "<p><img alt='x'></p>".
Definition no_img : string := "<p>text</p>".

Definition parse (markup : string) : outcome (list node) :=
  if decide (markup = with_src) then
    Ret [Tag "p" ∅ [Tag "img" {["src" := "http://i/1.jpg"]} [];
                    NavigableString "text"]]
  else if decide (markup = without_src) then
    Ret [Tag "p" ∅ [Tag "img" {["alt" := "x"]} []]]
  else Ret [Tag "p" ∅ [NavigableString "text"]].

Definition entry (title link description : string) : Entry :=
  {| entry_title := Ret title; entry_link := Ret link;
     entry_description := Ret description |}.

Definition ok_200 : outcome Response :=
  Ret {| status_code := 200; content := png |}.

Definition item (title link : string) (url : option string) : NewsItem :=
  {| item_title := title; item_link := link; item_image_url := url |}.

Definition quiet : Env := env_of (Ret {| entries := [] |}) ok_200 parse.

(** The network is down: [feedparser.parse] catches the error of the
    download and returns a result without entries, [requests.get]
    raises. *)
Definition unreachable : Env :=
  env_of (Ret {| entries := [] |})
         (Raise (Exception "ConnectionError" "Connection refused")) parse.

(** A feed whose only entry has no [title] attribute. *)
Definition untitled : Env :=
  env_of (Ret {| entries :=
                   [ {| entry_title :=
                          Raise (Exception "AttributeError"
                                   "object has no attribute 'title'");
                        entry_link := Ret "http://a";
                        entry_description := Ret no_img |} ] |})
         ok_200 parse.

(** A feed of two entries; the picture of the second has no [src]. *)
Definition feed2 : Feed :=
  {| entries := [entry "A" "http://a" with_src;
                 entry "B" "http://b" without_src] |}.
Definition env2 : Env := env_of (Ret feed2) ok_200 parse.

(** A feed of one entry with a picture. *)
Definition feed1 : Feed :=
  {| entries := [entry "A" "http://a" with_src] |}.
Definition env1 : Env := env_of (Ret feed1) ok_200 parse.

(** A window of PostNewsTrial.py with one row: the image label shows the
    placeholder, and the image thread of the row has not run yet. *)
Definition one_row : World :=
  {| labels := {[ 0%nat := {| lb_content := Text "Loading image...";
                              lb_dblclick := None; lb_alive := true |} ]};
     next_label := 1%nat;
     news_widgets :=
       [highlighted 0 0
          (row_of (item "A" "http://a" (Some "http://i/1.jpg")) 0)];
     selected_index := 0;
     threads := [LoadImageThread (Some "http://i/1.jpg") "http://a" 0];
     queue := [];
     running_on := UIThread;
     clock := 1%nat;
     trace := [(WorkerThread, NetFeed FEED_URL)] |}.

(** Three rows without pictures, the selection on the first. *)
Definition three_rows : World :=
  (PostNews.display_news quiet
     [item "a" "http://a" None; item "b" "http://b" None;
      item "c" "" None] boot).2.
End Samples.

(** ** Further observations *)

(** What a row is, apart from its style sheet. *)
Definition row_view (r : QWidget) : string * string * string * nat :=
  (widget_title r, widget_link r, widget_title_dblclick r,
   widget_image_label r).

(** The style sheets of the rows are those of the selection: the row at the
    selected index, if there is one, has the highlight, every other row has
    the plain background. *)
Definition highlight_ok (w : World) : Prop :=
  widget_styleSheet <$> news_widgets w
  = imap (λ i _, if Z.of_nat i =? selected_index w
                 then lightblue else none_colour)
         (news_widgets w).

(** The URLs handed to [requests.get], in order. *)
Definition requested (w : World) : list string :=
  omap (λ te, match te.2 with NetGet url => Some url | _ => None end)
       (trace w).

(** The value of [f] is in the world after what it was before. *)
Definition unchanged {A} (f : World → A) : relation World :=
  λ w w', f w' = f w.

(** A property of the world that holds after if it held before. *)
Definition keeps (P : World → Prop) : relation World :=
  λ w w', P w → P w'.

(** What only the interaction thread may touch. *)
Definition ui_state (w : World)
  : list QWidget * Z * gmap nat QLabel * list QThread * nat :=
  (news_widgets w, selected_index w, labels w, threads w, next_label w).

(** An event other than an empty batch. *)
Definition no_empty_batch (ev : event) : Prop :=
  match ev with
  | NewsFetched news_items => news_items ≠ []
  | _ => True
  end.

(** The URL [create_news_widget] of PostNews.py requests for an item: its
    thumbnail URL, unless that is [None] or the empty string. *)
Definition thumbnail_url (item : NewsItem) : option string :=
  if truthy_opt (item_image_url item) then item_image_url item else None.

(** The image label of a row of PostNewsTrial.py until its image result
    arrives. *)
Definition loading_label : QLabel :=
  {| lb_content := Text "Loading image..."; lb_dblclick := None;
     lb_alive := true |}.

(** The image thread [create_news_widget] of PostNewsTrial.py starts for an
    item whose row has the image label [label]. *)
Definition thread_of (item : NewsItem) (label : nat) : QThread :=
  LoadImageThread (item_image_url item) (item_link item) label.

(** The deferred deletions [display_news] posts for the rows it
    replaces. *)
Definition deletions (rows : list QWidget) : list event :=
  (λ r, DeferredDelete [widget_image_label r]) <$> rows.

(** ** Entries and the items made of them *)

(** The first picture of a document, in document order. *)
Definition first_img (soup : list node) : option node :=
  head (filter (is_tag "img") (document_order soup)).

(** One iteration of the loop over the entries, in either file. *)
Definition add_entry_of (v : variant) (env : Env)
  : Entry → list NewsItem → Py (list NewsItem) :=
  match v with
  | PostNews_py => PostNews.add_entry env
  | PostNewsTrial_py => PostNewsTrial.add_entry env
  end.

(** [item] is what the loop makes of [entry]: its title, its link, and the
    thumbnail URL the extraction gives, [None] where the extraction
    raises. *)
Definition made_from (env : Env) (entry : Entry) (item : NewsItem) : Prop :=
  entry_title entry = Ret (item_title item)
  ∧ entry_link entry = Ret (item_link item)
  ∧ item_image_url item
    = match image_url_of env entry with
      | Ret image_url => image_url
      | Raise _ => None
      end.

(** The iteration for [entry] goes through: the entry has a title and a
    link, and in PostNews.py the extraction of its thumbnail does not
    raise. *)
Definition entry_passes (v : variant) (env : Env) (entry : Entry) : Prop :=
  (∃ title, entry_title entry = Ret title)
  ∧ (∃ link, entry_link entry = Ret link)
  ∧ (v = PostNews_py → ∃ image_url, image_url_of env entry = Ret image_url).

(** The iteration for [entry] raises [e]: reading the title does, or
    reading the link does, or, in PostNews.py only, the extraction of the
    thumbnail does. *)
Definition entry_raises (v : variant) (env : Env) (entry : Entry) (e : exn)
  : Prop :=
  entry_title entry = Raise e
  ∨ (∃ title, entry_title entry = Ret title ∧ entry_link entry = Raise e)
  ∨ (v = PostNews_py
     ∧ ∃ title link,
         entry_title entry = Ret title ∧ entry_link entry = Ret link
         ∧ image_url_of env entry = Raise e).

(** ** Labels and the objects that exist *)

(** Every label that exists was made by [QLabel()]: its name is below the
    next one to be handed out. *)
Definition labels_below_next (w : World) : Prop :=
  ∀ l, is_Some (labels w !! l) → (l < next_label w)%nat.

(** The labels that exist after are those that existed before and those
    made in between. *)
Definition allocates : relation World :=
  λ w w', (next_label w ≤ next_label w')%nat
          ∧ ∀ l, is_Some (labels w' !! l) →
                 is_Some (labels w !! l)
                 ∨ (next_label w ≤ l < next_label w')%nat.

(** ** What every execution keeps *)




(** * Properties *)

(** ** The monad *)

Lemma bind_ret_l {A B} (m : Py A) (k : A → Py B) w a w' :
  m w = (Ret a, w') → bind m k w = k a w'.
Proof. intros H. unfold bind. by rewrite H. Qed.

Lemma try_except_ret {A} (m : Py A) h w a w' :
  m w = (Ret a, w') → try_except m h w = (Ret a, w').
Proof. intros H. unfold try_except. by rewrite H. Qed.

Lemma try_except_raise {A} (m : Py A) h w e w' :
  m w = (Raise e, w') → try_except m h w = h e w'.
Proof. intros H. unfold try_except. by rewrite H. Qed.


Section Preserves.
Context (R : relation World) `{!PreOrder R}.

Lemma preserves_ret {A} (a : A) : preserves R (ret a).
Proof. intros w. simpl. reflexivity. Qed.

Lemma preserves_raise {A} e : preserves R (@raise A e).
Proof. intros w. simpl. reflexivity. Qed.

Lemma preserves_lift {A} (o : outcome A) : preserves R (lift o).
Proof. intros w. simpl. reflexivity. Qed.

Lemma preserves_get {A} (f : World → A) : preserves R (get f).
Proof. intros w. simpl. reflexivity. Qed.

Lemma preserves_QThread_del th : preserves R (QThread_del th).
Proof.
  intros w. unfold QThread_del. destruct (decide _); simpl; reflexivity.
Qed.

Lemma preserves_modify f : (∀ w, R w (f w)) → preserves R (modify f).
Proof. intros H w. apply H. Qed.

Lemma preserves_bind {A B} (m : Py A) (k : A → Py B) :
  preserves R m → (∀ a, preserves R (k a)) → preserves R (bind m k).
Proof.
  intros Hm Hk w. unfold bind. specialize (Hm w).
  destruct (m w) as [[a|e] w1]; simpl in *; [|done].
  etrans; [exact Hm|apply Hk].
Qed.

Lemma preserves_try_except {A} (m : Py A) h :
  preserves R m → (∀ e, preserves R (h e)) → preserves R (try_except m h).
Proof.
  intros Hm Hh w. unfold try_except. specialize (Hm w).
  destruct (m w) as [[a|e] w1]; simpl in *; [done|].
  etrans; [exact Hm|apply Hh].
Qed.

Lemma preserves_for_each {A} (xs : list A) body :
  (∀ x, preserves R (body x)) → preserves R (for_each xs body).
Proof.
  intros Hb. induction xs as [|x xs IH]; simpl.
  - apply preserves_ret.
  - apply preserves_bind; auto.
Qed.

Lemma preserves_for_fold {A S} (xs : list A) (s : S) body :
  (∀ x s, preserves R (body x s)) → preserves R (for_fold xs s body).
Proof.
  intros Hb. revert s. induction xs as [|x xs IH]; intros s; simpl.
  - apply preserves_ret.
  - apply preserves_bind; auto.
Qed.
End Preserves.

(** Splits a goal [preserves R m] along the structure of [m]. *)
Ltac preserve :=
  repeat match goal with
    | |- preserves ?R (ret _) => apply (preserves_ret R)
    | |- preserves ?R (raise _) => apply (preserves_raise R)
    | |- preserves ?R (lift _) => apply (preserves_lift R)
    | |- preserves ?R (get _) => apply (preserves_get R)
    | |- preserves ?R (QThread_del _) => apply (preserves_QThread_del R)
    | |- preserves ?R (bind _ _) => apply (preserves_bind R); [|intros ?]
    | |- preserves ?R (try_except _ _) =>
        apply (preserves_try_except R); [|intros ?]
    | |- preserves ?R (for_each _ _) => apply (preserves_for_each R); intros ?
    | |- preserves ?R (for_fold _ _ _) =>
        apply (preserves_for_fold R); intros ? ?
    | |- preserves _ (if ?b then _ else _) => destruct b
    | |- preserves _ (match ?x with _ => _ end) => destruct x
    end.

Lemma for_each_deleteLater old w :
  for_each old deleteLater w
  = (Ret tt,
     set_queue (λ q, q ++ ((λ r, DeferredDelete [widget_image_label r]) <$> old)) w).
Proof.
  revert w. induction old as [|r old IH]; intros w.
  - destruct w; cbn. unfold ret, set_queue; cbn. by rewrite app_nil_r.
  - cbn [for_each]. unfold bind at 1. unfold deleteLater, post, modify.
    rewrite IH. destruct w; unfold set_queue; cbn. by rewrite <- app_assoc.
Qed.

Lemma update_highlight_eq w :
  update_highlight w
  = (Ret tt,
     set_news_widgets
       (imap (λ i widget,
                if Z.of_nat i =? selected_index w
                then setStyleSheet "background-color: lightblue;" widget
                else setStyleSheet "background-color: none;" widget)) w).
Proof. reflexivity. Qed.


Lemma QLabel_new_eq w :
  QLabel_new w
  = (Ret (next_label w),
     set_next_label (S (next_label w))
       (set_labels (insert (next_label w)
                      {| lb_content := NoContent; lb_dblclick := None;
                         lb_alive := true |}) w)).
Proof. reflexivity. Qed.

Lemma QLabel_call_alive l f w lb :
  labels w !! l = Some lb → lb_alive lb = true →
  QLabel_call l f w = (Ret tt, set_labels (insert l (f lb)) w).
Proof. intros H1 H2. unfold QLabel_call. by rewrite H1, H2. Qed.

Lemma QThread_del_started th w :
  th ∈ threads w → QThread_del th w = (Raise QThread_destroyed, w).
Proof. intros H. unfold QThread_del. by rewrite decide_True. Qed.

(** [create_news_widget] of PostNewsTrial.py does not return: the image
    label is made and the thread is started when the thread object is
    destroyed. *)
Lemma PostNewsTrial_create_news_widget_eq item w :
  PostNewsTrial.create_news_widget item w
  = (Raise QThread_destroyed,
     set_threads (λ ts, ts ++ [thread_of item (next_label w)])
       (set_labels (insert (next_label w) loading_label)
          (set_next_label (S (next_label w)) w))).
Proof.
  unfold PostNewsTrial.create_news_widget.
  erewrite bind_ret_l; [|apply QLabel_new_eq].
  erewrite bind_ret_l.
  2:{ unfold setText. eapply QLabel_call_alive; simpl;
        [apply lookup_insert_eq|done]. }
  erewrite bind_ret_l; [|reflexivity].
  unfold bind. rewrite QThread_del_started.
  2:{ simpl. apply elem_of_app. right. apply list_elem_of_here. }
  destruct w; unfold set_threads, set_labels, set_next_label, thread_of,
    loading_label; simpl.
  by rewrite insert_insert_eq.
Qed.

(** [display_news] of PostNewsTrial.py: without items it clears the rows
    and returns; with items it ends in the first call of
    [create_news_widget]. *)
Lemma PostNewsTrial_display_news_nil w :
  PostNewsTrial.display_news [] w
  = (Ret tt,
     set_news_widgets (λ _, [])
       (set_queue (λ q, q ++ deletions (news_widgets w)) w)).
Proof.
  unfold PostNewsTrial.display_news, display_news.
  erewrite bind_ret_l; [|reflexivity].
  erewrite bind_ret_l; [|apply for_each_deleteLater].
  reflexivity.
Qed.

Lemma PostNewsTrial_display_news_cons item news_items w :
  PostNewsTrial.display_news (item :: news_items) w
  = (Raise QThread_destroyed,
     set_threads (λ ts, ts ++ [thread_of item (next_label w)])
       (set_labels (insert (next_label w) loading_label)
          (set_next_label (S (next_label w))
             (set_news_widgets (λ _, [])
                (set_queue (λ q, q ++ deletions (news_widgets w)) w))))).
Proof.
  unfold PostNewsTrial.display_news, display_news.
  erewrite bind_ret_l; [|reflexivity].
  erewrite bind_ret_l; [|apply for_each_deleteLater].
  erewrite bind_ret_l; [|reflexivity].
  cbn [for_each]. unfold bind at 1. unfold bind at 1. unfold bind at 1.
  by rewrite PostNewsTrial_create_news_widget_eq.
Qed.

Lemma PostNews_creates_row env :
  creates_row (PostNews.create_news_widget env).
Proof.
  intros item w. unfold PostNews.create_news_widget.
  erewrite bind_ret_l; [|apply QLabel_new_eq].
  set (w0 := set_next_label _ _).
  assert (Hl0 : labels w0 !! next_label w
                = Some {| lb_content := NoContent; lb_dblclick := None;
                          lb_alive := true |})
    by (subst w0; simpl; apply lookup_insert_eq).
  destruct (truthy_opt (item_image_url item)).
  - unfold try_except, net_get, perform, bind, modify, get, lift, print.
    simpl.
    destruct (requests_get env (clock w) _) as [resp|e]; simpl.
    + destruct (status_code resp =? 200); simpl.
      * unfold setPixmap, set_mouseDoubleClickEvent, QLabel_call, perform,
          modify, ret. simpl.
        rewrite lookup_insert_eq. simpl.
        eexists. split; [reflexivity|]. simpl. repeat split; try done.
        intros l Hl. rewrite lookup_alter_ne by lia.
        rewrite !lookup_insert_ne; [done|lia..].
      * eexists. split; [reflexivity|]. simpl. repeat split; try done.
        intros l Hl. rewrite !lookup_insert_ne; [done|lia..].
    + eexists. split; [reflexivity|]. simpl. repeat split; try done.
      intros l Hl. rewrite !lookup_insert_ne; [done|lia..].
  - erewrite bind_ret_l.
    2:{ unfold setText. eapply QLabel_call_alive; [exact Hl0|done]. }
    eexists. split; [reflexivity|]. simpl. repeat split; try done.
    intros l Hl. rewrite !lookup_insert_ne; [done|lia..].
Qed.


Lemma imap_imap {A B C} (f : nat → B → C) (g : nat → A → B) (l : list A) :
  imap f (imap g l) = imap (λ i x, f i (g i x)) l.
Proof.
  revert f g. induction l as [|x l IH]; intros f g; simpl; [done|].
  f_equal. apply IH.
Qed.

Section DisplayNews.
Variable create : NewsItem → Py QWidget.
Hypothesis Hcreate : creates_row create.

Lemma append_rows items : ∀ w, ∃ w',
  for_each items
    (λ item, let* news_widget := create item in
             modify (set_news_widgets (λ ws, ws ++ [news_widget]))) w
  = (Ret tt, w')
  ∧ news_widgets w'
    = news_widgets w ++ imap (λ i item, row_of item (next_label w + i)) items
  ∧ selected_index w' = selected_index w
  ∧ next_label w' = (next_label w + length items)%nat
  ∧ running_on w' = running_on w
  ∧ (∀ l, (l < next_label w)%nat → labels w' !! l = labels w !! l).
Proof.
  induction items as [|item items IH]; intros w.
  - exists w. simpl. rewrite app_nil_r. repeat split; try done; lia.
  - destruct (Hcreate item w) as (w1 & E1 & Hws & Hsel & Hnext & Hrun & Hlab).
    cbn [for_each]. erewrite bind_ret_l.
    2:{ erewrite bind_ret_l; [|exact E1]. reflexivity. }
    destruct (IH (set_news_widgets (λ ws, ws ++ [row_of item (next_label w)]) w1))
      as (w2 & E2 & Hws2 & Hsel2 & Hnext2 & Hrun2 & Hlab2).
    exists w2. split; [exact E2|]. simpl in *.
    rewrite Hws2, Hsel2, Hnext2, Hrun2, Hws, Hnext.
    repeat split; try done.
    + rewrite <- app_assoc. simpl. f_equal. rewrite Nat.add_0_r. f_equal.
      apply imap_ext. intros i x _. simpl. f_equal. lia.
    + lia.
    + intros l Hl. rewrite Hlab2 by lia. by apply Hlab.
Qed.

Lemma display_news_spec news_items w : ∃ w',
  display_news create news_items w = (Ret tt, w')
  ∧ news_widgets w'
    = imap (λ i item, highlighted 0 i (row_of item (next_label w + i)))
           news_items
  ∧ selected_index w'
    = match news_items with [] => selected_index w | _ :: _ => 0 end
  ∧ next_label w' = (next_label w + length news_items)%nat
  ∧ running_on w' = running_on w
  ∧ (∀ l, (l < next_label w)%nat → labels w' !! l = labels w !! l).
Proof.
  unfold display_news.
  erewrite bind_ret_l; [|reflexivity].
  erewrite bind_ret_l; [|apply for_each_deleteLater].
  erewrite bind_ret_l; [|reflexivity].
  set (w0 := set_news_widgets _ _).
  destruct (append_rows news_items w0)
    as (w1 & E1 & Hws & Hsel & Hnext & Hrun & Hlab).
  erewrite bind_ret_l; [|exact E1].
  erewrite bind_ret_l; [|reflexivity].
  subst w0. simpl in Hws, Hsel, Hnext, Hrun, Hlab.
  destruct news_items as [|item items].
  - exists w1. simpl in *. rewrite Hws. repeat split; try done.
  - assert (Hne : ∃ r rs, news_widgets w1 = r :: rs)
      by (rewrite Hws; cbn [imap]; eauto).
    destruct Hne as (r & rs & Hne). rewrite Hne.
    eexists. split; [reflexivity|].
    cbn [news_widgets selected_index next_label running_on labels
         set_news_widgets set_selected_index bind modify update_highlight
         get fst snd].
    rewrite Hws, Hnext, Hrun, imap_imap. repeat split; try done.
Qed.
End DisplayNews.


Lemma display_news_shows create news_items w :
  creates_row create →
  ∃ w', display_news create news_items w = (Ret tt, w')
        ∧ shows news_items w w'.
Proof.
  intros Hc.
  destruct (display_news_spec create Hc news_items w)
    as (w' & E & Hws & Hsel & _).
  exists w'. split; [exact E|]. unfold shows. rewrite Hws, Hsel.
  repeat split.
  - by rewrite length_imap.
  - rewrite fmap_imap. rewrite <- imap_const. apply imap_ext.
    intros i x _. simpl. unfold highlighted. by destruct (Z.of_nat i =? 0).
  - rewrite fmap_imap. apply imap_ext. intros i x _. simpl.
    destruct i; reflexivity.
Qed.

(** C1: [display_news] on a list of K items.  In PostNews.py it returns
    normally and leaves K rows, one per item in the same order, each with
    the title and the link of its item; when K > 0 the selection is 0 and
    the first row, and no other, carries the highlight.  In
    PostNewsTrial.py this holds for K = 0 only.  For K > 0 the call does not
    return: the process is aborted while the row of the first item is
    built, after the image thread of that item was started; no row is in
    the list, and the selection is what it was. *)
Theorem C1_display_news :
  (∀ env news_items w, ∃ w',
     PostNews.display_news env news_items w = (Ret tt, w')
     ∧ shows news_items w w')
  ∧ (∀ w, ∃ w',
       PostNewsTrial.display_news [] w = (Ret tt, w') ∧ shows [] w w')
  ∧ (∀ item news_items w, ∃ w',
       PostNewsTrial.display_news (item :: news_items) w
       = (Raise QThread_destroyed, w')
       ∧ ¬ shows (item :: news_items) w w'
       ∧ news_widgets w' = []
       ∧ selected_index w' = selected_index w
       ∧ threads w' = threads w ++ [thread_of item (next_label w)]).
Proof.
  split; [|split].
  - intros env news_items w. apply display_news_shows, PostNews_creates_row.
  - intros w. eexists. split; [apply PostNewsTrial_display_news_nil|].
    by repeat split.
  - intros item news_items w. eexists.
    split; [apply PostNewsTrial_display_news_cons|].
    split; [|by repeat split]. intros [Hlen _]. simpl in Hlen. discriminate.
Qed.

Lemma open_link_eq link w :
  open_link link w
  = (Ret tt,
     if decide (link = "") then w
     else set_trace (λ tr, tr ++ [(running_on w, BrowserOpen link)]) w).
Proof.
  unfold open_link. destruct link as [|c s]; [done|].
  rewrite decide_False by done. reflexivity.
Qed.

Lemma handle_title_double_click create on_image w row widget :
  news_widgets w !! row = Some widget →
  handle create on_image (TitleDoubleClick row) w
  = open_link (widget_title_dblclick widget) w.
Proof.
  intros Hrow. unfold handle.
  erewrite bind_ret_l; [|reflexivity]. by rewrite Hrow.
Qed.

(** A double click on the picture of a row, once a picture was set, goes
    through [open_link] as well. *)
Lemma handle_image_double_click create on_image w row widget lb link :
  news_widgets w !! row = Some widget →
  labels w !! widget_image_label widget = Some lb →
  lb_dblclick lb = Some link →
  handle create on_image (ImageDoubleClick row) w = open_link link w.
Proof.
  intros Hrow Hlb Hlink. unfold handle.
  erewrite bind_ret_l; [|reflexivity]. erewrite bind_ret_l; [|reflexivity].
  by rewrite Hrow, Hlb, Hlink.
Qed.

(** C9: a double click on the title of a row, in either file.  With the
    empty string for link, nothing happens at all; otherwise the browser is
    opened once, on that link, and nothing else changes. *)
Theorem C9_open_link (v : variant) (env : Env) (w : World) (row : nat)
    (widget : QWidget) :
  news_widgets w !! row = Some widget →
  widget_title_dblclick widget = widget_link widget →
  handle_of v env (TitleDoubleClick row) w
  = (Ret tt,
     if decide (widget_link widget = "") then w
     else set_trace
            (λ tr, tr ++ [(running_on w, BrowserOpen (widget_link widget))]) w).
Proof.
  intros Hrow Hlink.
  destruct v; unfold handle_of, PostNews.handle, PostNewsTrial.handle;
    rewrite (handle_title_double_click _ _ _ _ _ Hrow), Hlink;
    apply open_link_eq.
Qed.

Lemma C9_open_link_witness :
  handle_of PostNews_py Samples.quiet (TitleDoubleClick 1) Samples.three_rows
  = (Ret tt,
     set_trace (λ tr, tr ++ [(UIThread, BrowserOpen "http://b")])
       Samples.three_rows)
  ∧ handle_of PostNewsTrial_py Samples.quiet (TitleDoubleClick 2)
      Samples.three_rows
    = (Ret tt, Samples.three_rows).
Proof.
  split.
  - exact (C9_open_link PostNews_py Samples.quiet Samples.three_rows 1
             (highlighted 0 1 (row_of (Samples.item "b" "http://b" None) 1))
             eq_refl eq_refl).
  - exact (C9_open_link PostNewsTrial_py Samples.quiet Samples.three_rows 2
             (highlighted 0 2 (row_of (Samples.item "c" "" None) 2))
             eq_refl eq_refl).
Defined.

Lemma py_getitem_ok {A} (l : list A) (i : Z) :
  0 ≤ i < Z.of_nat (length l) →
  ∃ x, l !! Z.to_nat i = Some x ∧ py_getitem l i = Ret x.
Proof.
  intros Hi. unfold py_getitem.
  destruct (Z.ltb_spec i 0); [lia|].
  destruct (Z.leb_spec 0 i); [|lia].
  destruct (Z.ltb_spec i (Z.of_nat (length l))); [|lia]. simpl.
  destruct (lookup_lt_is_Some_2 l (Z.to_nat i)) as [x Hx]; [lia|].
  exists x. by rewrite Hx.
Qed.

Lemma move_to w (i : Z) :
  0 ≤ i < Z.of_nat (length (news_widgets w)) →
  ∃ w', (modify (set_selected_index i) >> update_highlight >>
         scroll_to_selected) w = (Ret tt, w')
        ∧ selected_index w' = i
        ∧ news_widgets w' = imap (highlighted i) (news_widgets w).
Proof.
  intros Hi.
  set (ws := imap (highlighted i) (news_widgets w)).
  destruct (py_getitem_ok ws i) as (x & _ & Hx).
  { subst ws. by rewrite length_imap. }
  eexists. split.
  - erewrite bind_ret_l; [|reflexivity].
    erewrite bind_ret_l; [|apply update_highlight_eq].
    unfold scroll_to_selected.
    erewrite bind_ret_l; [|reflexivity]. erewrite bind_ret_l; [|reflexivity].
    cbn [news_widgets selected_index set_news_widgets set_selected_index].
    change (imap _ (news_widgets w)) with ws.
    unfold bind, lift. rewrite Hx. reflexivity.
  - split; reflexivity.
Qed.

Lemma keyPressEvent_down w :
  0 ≤ selected_index w < Z.of_nat (length (news_widgets w)) →
  ∃ w', keyPressEvent Key_Down w = (Ret tt, w')
        ∧ selected_index w'
          = Z.min (selected_index w + 1) (Z.of_nat (length (news_widgets w)) - 1)
        ∧ length (news_widgets w') = length (news_widgets w).
Proof.
  intros Hi. unfold keyPressEvent.
  erewrite bind_ret_l; [|reflexivity]. erewrite bind_ret_l; [|reflexivity].
  destruct (Z.ltb_spec (selected_index w) (Z.of_nat (length (news_widgets w)) - 1)).
  - destruct (move_to w (selected_index w + 1)) as (w' & E & Hs & Hw); [lia|].
    exists w'. split; [exact E|]. rewrite Hs, Hw, length_imap. split; [lia|done].
  - exists w. split; [done|]. split; [lia|done].
Qed.

Lemma keyPressEvent_up w :
  0 ≤ selected_index w < Z.of_nat (length (news_widgets w)) →
  ∃ w', keyPressEvent Key_Up w = (Ret tt, w')
        ∧ selected_index w' = Z.max (selected_index w - 1) 0
        ∧ length (news_widgets w') = length (news_widgets w).
Proof.
  intros Hi. unfold keyPressEvent.
  erewrite bind_ret_l; [|reflexivity].
  destruct (Z.gtb_spec (selected_index w) 0).
  - destruct (move_to w (selected_index w - 1)) as (w' & E & Hs & Hw); [lia|].
    exists w'. split; [exact E|]. rewrite Hs, Hw, length_imap. split; [lia|done].
  - exists w. split; [done|]. split; [lia|done].
Qed.

(** C5: K rows and the selection at a valid index i.  After n presses of
    Down the selection is min (i + n) (K - 1): from 0 it reaches K - 1 after
    K - 1 presses, not before, and stays there.  After n presses of Up it is
    max (i - n) 0.  No press raises, none changes the number of rows. *)
Theorem C5_move_selection (w : World) (n : nat) :
  let K := Z.of_nat (length (news_widgets w)) in
  let i := selected_index w in
  0 ≤ i < K →
  (∃ w', for_each (replicate n Key_Down) keyPressEvent w = (Ret tt, w')
         ∧ selected_index w' = Z.min (i + Z.of_nat n) (K - 1)
         ∧ length (news_widgets w') = length (news_widgets w))
  ∧ (∃ w', for_each (replicate n Key_Up) keyPressEvent w = (Ret tt, w')
           ∧ selected_index w' = Z.max (i - Z.of_nat n) 0
           ∧ length (news_widgets w') = length (news_widgets w)).
Proof.
  cbv zeta. revert w. induction n as [|n IH]; intros w Hi.
  - split; exists w; (split; [done|split; [lia|done]]).
  - split.
    + destruct (keyPressEvent_down w Hi) as (w1 & E1 & Hs1 & Hl1).
      destruct (IH w1) as [(w2 & E2 & Hs2 & Hl2) _]; [rewrite Hl1; lia|].
      exists w2. cbn [replicate for_each]. erewrite bind_ret_l; [|exact E1].
      split; [exact E2|]. rewrite Hs2, Hl2, Hs1, Hl1. split; [lia|done].
    + destruct (keyPressEvent_up w Hi) as (w1 & E1 & Hs1 & Hl1).
      destruct (IH w1) as [_ (w2 & E2 & Hs2 & Hl2)]; [rewrite Hl1; lia|].
      exists w2. cbn [replicate for_each]. erewrite bind_ret_l; [|exact E1].
      split; [exact E2|]. rewrite Hs2, Hl2, Hs1. split; [lia|done].
Qed.

Lemma C5_move_selection_witness :
  (∃ w', for_each (replicate 2 Key_Down) keyPressEvent Samples.three_rows
         = (Ret tt, w')
         ∧ selected_index w' = 2
         ∧ length (news_widgets w') = 3%nat)
  ∧ (∃ w', for_each (replicate 2 Key_Up) keyPressEvent Samples.three_rows
           = (Ret tt, w')
           ∧ selected_index w' = 0
           ∧ length (news_widgets w') = 3%nat).
Proof.
  apply (C5_move_selection Samples.three_rows 2).
  change (0 ≤ 0 < 3). lia.
Defined.

(** ** The feed fetcher *)


Lemma net_feed_eq env url w :
  net_feed env url w
  = (feedparser_parse env (clock w) url,
     set_clock (S (clock w))
       (set_trace (λ tr, tr ++ [(running_on w, NetFeed url)]) w)).
Proof. reflexivity. Qed.



Section Fetcher.
Variable env : Env.
Variable add : Entry → list NewsItem → Py (list NewsItem).
Hypothesis Hadd : adds_one add.

Lemma for_fold_add es : ∀ acc w,
  queue (for_fold es acc add w).2 = queue w
  ∧ ∀ items, (for_fold es acc add w).1 = Ret items →
             ∃ new, items = acc ++ new ∧ Forall2 from_entry es new.
Proof.
  induction es as [|entry es IH]; intros acc w; simpl.
  - split; [done|]. intros items [= <-]. exists [].
    split; [by rewrite app_nil_r|constructor].
  - destruct (Hadd entry acc w) as [Hq Hr]. unfold bind.
    destruct (add entry acc w) as [[acc'|e] w1]; simpl in *; [|done].
    destruct (Hr acc' eq_refl) as (item & -> & Hitem).
    destruct (IH (acc ++ [item]) w1) as [Hq' Hr'].
    split; [congruence|]. intros items Hitems.
    destruct (Hr' items Hitems) as (new & -> & Hnew).
    exists (item :: new). rewrite <- app_assoc. split; [done|].
    by constructor.
Qed.

Lemma fetch_body_eq w :
  fetch_body env add w
  = let w0 := set_clock (S (clock w))
                (set_trace (λ tr, tr ++ [(running_on w, NetFeed FEED_URL)]) w) in
    match feedparser_parse env (clock w) FEED_URL with
    | Ret feed =>
        match for_fold (entries feed) [] add w0 with
        | (Ret items, w1) =>
            (Ret tt, set_queue (λ q, q ++ [NewsFetched items]) w1)
        | (Raise e, w1) => (Raise e, w1)
        end
    | Raise e => (Raise e, w0)
    end.
Proof.
  unfold fetch_body, bind. rewrite net_feed_eq. cbv zeta.
  destruct (feedparser_parse env (clock w) FEED_URL) as [feed|e]; [|done].
  by destruct (for_fold _ _ _ _) as [[items|e] w1].
Qed.

(** The suite of the [try] posts once, as its last step. *)
Lemma fetch_body_cases w :
  (∃ e w1, fetch_body env add w = (Raise e, w1) ∧ queue w1 = queue w)
  ∨ (∃ feed items w1,
       feedparser_parse env (clock w) FEED_URL = Ret feed
       ∧ Forall2 from_entry (entries feed) items
       ∧ fetch_body env add w = (Ret tt, w1)
       ∧ queue w1 = queue w ++ [NewsFetched items]).
Proof.
  rewrite fetch_body_eq. cbv zeta. set (w0 := set_clock _ _).
  destruct (feedparser_parse env (clock w) FEED_URL) as [feed|e].
  - destruct (for_fold_add (entries feed) [] w0) as [Hq Hr].
    destruct (for_fold (entries feed) [] add w0) as [[items|e] w1];
      simpl in *.
    + right. destruct (Hr items eq_refl) as (new & -> & Hnew).
      exists feed, new, (set_queue (λ q, q ++ [NewsFetched new]) w1).
      repeat split; try done. simpl. by rewrite Hq.
    + left. exists e, w1. split; [done|]. by rewrite Hq.
  - left. eexists _, _. split; [reflexivity|done].
Qed.

Lemma fetch_run_cases w :
  ∃ items w',
    FetchNewsThread_run env add w = (Ret tt, w')
    ∧ queue w' = queue w ++ [NewsFetched items]
    ∧ ((∃ e w1, fetch_body env add w = (Raise e, w1)
                ∧ items = [item_of_error e])
       ∨ (∃ feed w1, fetch_body env add w = (Ret tt, w1)
                  ∧ feedparser_parse env (clock w) FEED_URL = Ret feed
                  ∧ Forall2 from_entry (entries feed) items)).
Proof.
  unfold FetchNewsThread_run.
  destruct (fetch_body_cases w)
    as [(e & w1 & E & Hq)|(feed & items & w1 & Hfeed & Hitems & E & Hq)].
  - exists [item_of_error e], (set_queue (λ q, q ++ [NewsFetched [item_of_error e]]) w1).
    erewrite try_except_raise; [|exact E].
    split; [done|]. split; [simpl; by rewrite Hq|]. left. eauto.
  - exists items, w1. erewrite try_except_ret; [|exact E].
    split; [done|]. split; [done|]. right. eauto.
Qed.

Lemma emitted_fetch_run w items w' :
  FetchNewsThread_run env add w = (Ret tt, w') →
  queue w' = queue w ++ [NewsFetched items] →
  emitted (FetchNewsThread_run env add) w = [NewsFetched items].
Proof.
  intros E Hq. unfold emitted. rewrite E. simpl. rewrite Hq.
  by rewrite drop_app_length.
Qed.
End Fetcher.


Lemma extract_image_url_eq env entry w :
  extract_image_url env entry w = (image_url_of env entry, w).
Proof.
  unfold image_url_of, extract_image_url, bind, lift, ret.
  destruct (entry_description entry) as [d|e]; [|done].
  destruct (BeautifulSoup env d) as [soup|e]; [|done].
  destruct (find "img" soup) as [t|]; [|done].
  by destruct (tag_getitem t "src").
Qed.

Lemma PostNews_adds_one env : adds_one (PostNews.add_entry env).
Proof.
  intros entry acc w. unfold PostNews.add_entry, bind, lift, ret.
  destruct (entry_title entry) as [t|e] eqn:Ht; [|done].
  destruct (entry_link entry) as [l|e] eqn:Hl; [|done].
  rewrite extract_image_url_eq.
  destruct (image_url_of env entry) as [u|e]; [|done].
  split; [done|]. intros items [= <-]. eexists. split; [done|].
  by split.
Qed.

Lemma PostNewsTrial_adds_one env : adds_one (PostNewsTrial.add_entry env).
Proof.
  intros entry acc w. unfold PostNewsTrial.add_entry, bind, lift, ret.
  destruct (entry_title entry) as [t|e] eqn:Ht; [|done].
  destruct (entry_link entry) as [l|e] eqn:Hl; [|done].
  unfold try_except. rewrite extract_image_url_eq.
  destruct (image_url_of env entry) as [u|e]; simpl.
  - split; [done|]. intros items [= <-]. eexists. split; [done|]. by split.
  - split; [done|]. intros items [= <-]. eexists. split; [done|]. by split.
Qed.

Lemma adds_one_of v env :
  adds_one (match v with
            | PostNews_py => PostNews.add_entry env
            | PostNewsTrial_py => PostNewsTrial.add_entry env
            end).
Proof. destruct v; [apply PostNews_adds_one|apply PostNewsTrial_adds_one]. Qed.

Lemma fetch_run_cases_of v env w :
  ∃ items w',
    FetchNewsThread_run_of v env w = (Ret tt, w')
    ∧ emitted (FetchNewsThread_run_of v env) w = [NewsFetched items]
    ∧ ((∃ e w1, fetch_body_of v env w = (Raise e, w1)
                ∧ items = [item_of_error e])
       ∨ (∃ feed w1, fetch_body_of v env w = (Ret tt, w1)
                  ∧ feedparser_parse env (clock w) FEED_URL = Ret feed
                  ∧ Forall2 from_entry (entries feed) items)).
Proof.
  destruct (fetch_run_cases env _ (adds_one_of v env) w)
    as (items & w' & E & Hq & H).
  pose proof (emitted_fetch_run env _ w items w' E Hq) as Hem.
  exists items, w'. destruct v; done.
Qed.

(** What [run] emits, in either file: one list; either the single item
    made from an exception, or one item per entry of the feed; the empty
    list exactly when the feed came without entries. *)
Lemma fetch_run_result v env w :
  ∃ items w',
    FetchNewsThread_run_of v env w = (Ret tt, w')
    ∧ emitted (FetchNewsThread_run_of v env) w = [NewsFetched items]
    ∧ ((∃ e, items = [item_of_error e])
       ∨ (∃ feed, feedparser_parse env (clock w) FEED_URL = Ret feed
                  ∧ Forall2 from_entry (entries feed) items))
    ∧ (items = [] ↔
       ∃ feed, feedparser_parse env (clock w) FEED_URL = Ret feed
               ∧ entries feed = []).
Proof.
  destruct (fetch_run_cases_of v env w) as (items & w' & E & Hem & H).
  exists items, w'. split; [exact E|]. split; [exact Hem|].
  destruct H as [(e & w1 & E' & ->)|(feed & w1 & E' & Hfeed & Hitems)].
  - split; [eauto|]. split; [done|].
    intros (feed & Hfeed & Hnil). exfalso.
    destruct v; unfold fetch_body_of, PostNews.fetch_body,
      PostNewsTrial.fetch_body in E'; rewrite fetch_body_eq in E';
      cbv zeta in E'; rewrite Hfeed, Hnil in E'; discriminate.
  - split; [eauto|]. split.
    + intros ->. exists feed. split; [done|].
      by apply Forall2_nil_inv_r in Hitems.
    + intros (feed' & Hfeed' & Hnil). rewrite Hfeed in Hfeed'.
      injection Hfeed' as <-. rewrite Hnil in Hitems.
      by apply Forall2_nil_inv_l in Hitems.
Qed.

(** C2: the network is down.  [feedparser.parse] does not raise, it
    returns a result without entries; [run], in either file and from any
    state, returns normally and has emitted the empty list: no item
    "Error fetching news: ..." is made. *)
Theorem C2_network_failure (v : variant) (w : World) :
  ∃ w',
    FetchNewsThread_run_of v Samples.unreachable w = (Ret tt, w')
    ∧ emitted (FetchNewsThread_run_of v Samples.unreachable) w
      = [NewsFetched []]
    ∧ ∀ e, NewsFetched [item_of_error e]
           ∉ emitted (FetchNewsThread_run_of v Samples.unreachable) w.
Proof.
  destruct (fetch_run_result v Samples.unreachable w)
    as (items & w' & E & Hem & _ & Hnil).
  assert (Hitems : items = []) by (apply Hnil; eexists; by split).
  subst items. exists w'. split; [exact E|]. split; [exact Hem|].
  intros e He. rewrite Hem in He. apply list_elem_of_singleton in He.
  discriminate.
Qed.

(** C7, as stated, fails: a feed without entries makes [run] emit the empty
    list. *)
Lemma C7_counterexample :
  ¬ (∀ v env w items,
       NewsFetched items ∈ emitted (FetchNewsThread_run_of v env) w →
       items ≠ []).
Proof.
  intros H. apply (H PostNews_py Samples.quiet boot []); [|done].
  vm_compute. apply list_elem_of_here.
Qed.

(** C7, amended: [run] emits one list, in either file; it holds either the
    single item made from the exception, or one item per entry of the feed,
    in the order of the feed; it is empty exactly when the feed was
    obtained and has no entries.  [display_news], in either file, accepts
    the empty list: it returns normally, leaves no row and leaves the
    selection as it was. *)
Theorem C7_fetch_result (v : variant) (env : Env) (w : World) :
  (∃ items,
     emitted (FetchNewsThread_run_of v env) w = [NewsFetched items]
     ∧ ((∃ e, items = [item_of_error e])
        ∨ (∃ feed, feedparser_parse env (clock w) FEED_URL = Ret feed
                   ∧ Forall2 from_entry (entries feed) items))
     ∧ (items = [] ↔
        ∃ feed, feedparser_parse env (clock w) FEED_URL = Ret feed
                ∧ entries feed = []))
  ∧ (∀ w0, ∃ w1,
       display_news_of v env [] w0 = (Ret tt, w1)
       ∧ news_widgets w1 = []
       ∧ selected_index w1 = selected_index w0).
Proof.
  split.
  - destruct (fetch_run_result v env w) as (items & w' & _ & H).
    by exists items.
  - intros w0. destruct v; simpl.
    + destruct (display_news_spec _ (PostNews_creates_row env) [] w0)
        as (w1 & E & Hws & Hsel & _).
      by exists w1.
    + eexists. split; [apply PostNewsTrial_display_news_nil|done].
Qed.

(** ** The thumbnail extraction *)

Lemma find_in_first name : ∀ n,
  find_in name n = head (filter (is_tag name) (descendants n)).
Proof.
  fix IH 1. intros [s|nm attrs cs]; simpl.
  - done.
  - rewrite filter_cons. simpl. destruct (decide (nm = name)) as [->|Hne].
    + done.
    + induction cs as [|c cs IHcs]; simpl; [done|].
      rewrite filter_app, IH.
      destruct (filter (is_tag name) (descendants c)); simpl; [|done].
      apply IHcs.
Qed.

(** [find] gives the first tag of that name in document order. *)
Lemma find_first name soup :
  find name soup = head (filter (is_tag name) (document_order soup)).
Proof.
  induction soup as [|c soup IH]; simpl; [done|].
  rewrite filter_app, find_in_first.
  destruct (filter (is_tag name) (descendants c)); simpl; [|done].
  apply IH.
Qed.

Lemma find_is_tag name soup t : find name soup = Some t → is_tag name t.
Proof.
  rewrite find_first. intros H.
  assert (Hin : t ∈ filter (is_tag name) (document_order soup)).
  { destruct (filter _ _); simplify_eq/=. apply list_elem_of_here. }
  by apply list_elem_of_filter in Hin as [? _].
Qed.

(** With a picture: the [src] of the first one.  Without: [None]. *)
Lemma image_url_of_picture env entry d soup nm attrs cs src :
  entry_description entry = Ret d →
  BeautifulSoup env d = Ret soup →
  head (filter (is_tag "img") (document_order soup)) = Some (Tag nm attrs cs) →
  attrs !! "src" = Some src →
  image_url_of env entry = Ret (Some src).
Proof.
  intros Hd Hsoup Hfirst Hsrc. rewrite <- find_first in Hfirst.
  unfold image_url_of, extract_image_url, bind, lift. rewrite Hd, Hsoup, Hfirst.
  simpl. by rewrite Hsrc.
Qed.

Lemma image_url_of_no_picture env entry d soup :
  entry_description entry = Ret d →
  BeautifulSoup env d = Ret soup →
  filter (is_tag "img") (document_order soup) = [] →
  image_url_of env entry = Ret None.
Proof.
  intros Hd Hsoup Hnone.
  assert (Hfind : find "img" soup = None) by (by rewrite find_first, Hnone).
  unfold image_url_of, extract_image_url, bind, lift.
  by rewrite Hd, Hsoup, Hfind.
Qed.

(** In PostNewsTrial.py an entry whose extraction raises gets no thumbnail
    and the loop goes on. *)
Lemma PostNewsTrial_add_entry_eq env entry acc w title link :
  entry_title entry = Ret title → entry_link entry = Ret link →
  ∃ w',
    PostNewsTrial.add_entry env entry acc w
    = (Ret (acc ++ [ {| item_title := title; item_link := link;
                        item_image_url :=
                          match image_url_of env entry with
                          | Ret image_url => image_url
                          | Raise _ => None
                          end |} ]), w')
    ∧ queue w' = queue w.
Proof.
  intros Ht Hl. unfold PostNewsTrial.add_entry, bind, lift, try_except.
  rewrite Ht, Hl, extract_image_url_eq.
  destruct (image_url_of env entry); eexists; split; reflexivity.
Qed.

(** In PostNews.py the same entry makes the iteration raise. *)
Lemma PostNews_add_entry_raises env entry acc w title link e :
  entry_title entry = Ret title → entry_link entry = Ret link →
  image_url_of env entry = Raise e →
  PostNews.add_entry env entry acc w = (Raise e, w).
Proof.
  intros Ht Hl He. unfold PostNews.add_entry, bind, lift.
  by rewrite Ht, Hl, extract_image_url_eq, He.
Qed.

(** C3: a feed of two entries, the second with a picture that has no
    [src].  PostNews.py emits the single error item and the first entry is
    lost; PostNewsTrial.py emits both items, the second without
    thumbnail. *)
Theorem C3_batch_lost_in_PostNews :
  emitted (PostNews.FetchNewsThread_run Samples.env2) boot
  = [NewsFetched [item_of_error (KeyError "src")]]
  ∧ emitted (PostNewsTrial.FetchNewsThread_run Samples.env2) boot
    = [NewsFetched [Samples.item "A" "http://a" (Some "http://i/1.jpg");
                    Samples.item "B" "http://b" None]].
Proof. split; vm_compute; reflexivity. Qed.

(** ** The selection and the rows *)

Lemma on_thread_eq {A} t (m : Py A) w r w' :
  m (set_running_on t w) = (r, w') →
  on_thread t m w = (r, set_running_on (running_on w) w').
Proof. intros E. unfold on_thread. by rewrite E. Qed.

(** With a valid selection no key raises, the selection stays valid and the
    number of rows is what it was. *)
Lemma keyPressEvent_valid k w :
  selection_valid w →
  ∃ w', keyPressEvent k w = (Ret tt, w') ∧ selection_valid w'
        ∧ length (news_widgets w') = length (news_widgets w).
Proof.
  intros [[Hnil Hsel]|Hin].
  - exists w. split; [|split; [by left|done]]. unfold keyPressEvent.
    destruct k; [| |done].
    + erewrite bind_ret_l; [|reflexivity].
      erewrite bind_ret_l; [|reflexivity]. by rewrite Hnil, Hsel.
    + erewrite bind_ret_l; [|reflexivity]. by rewrite Hsel.
  - destruct k.
    + destruct (keyPressEvent_down w Hin) as (w' & E & Hs & Hl).
      exists w'. split; [done|]. split; [|done]. right. rewrite Hs, Hl. lia.
    + destruct (keyPressEvent_up w Hin) as (w' & E & Hs & Hl).
      exists w'. split; [done|]. split; [|done]. right. rewrite Hs, Hl. lia.
    + exists w. split; [done|]. split; [by right|done].
Qed.

(** In PostNews.py a batch leaves a valid selection when it is not empty,
    or when the selection was 0. *)
Lemma PostNews_display_news_valid env news_items w :
  news_items ≠ [] ∨ selected_index w = 0 →
  ∃ w', PostNews.display_news env news_items w = (Ret tt, w')
        ∧ selection_valid w'.
Proof.
  intros H.
  destruct (display_news_shows _ news_items w (PostNews_creates_row env))
    as (w' & E & Hlen & _ & Hsel & _).
  exists w'. split; [exact E|]. unfold selection_valid.
  destruct news_items as [|item items].
  - left. split; [by apply nil_length_inv|].
    rewrite Hsel. by destruct H.
  - right. rewrite Hsel, Hlen. simpl. lia.
Qed.

Lemma handle_all_of_eq v env evs :
  handle_all_of v env evs
  = for_each evs (λ ev, on_thread UIThread (handle_of v env ev)).
Proof. by destruct v. Qed.

(** ** The image loader *)

Lemma scaled_thumbnail (w h : positive) :
  thumbnail_of (Z.pos w) (Z.pos h)
    (scaled {| pm_width := Z.pos w; pm_height := Z.pos h |} 100 100).
Proof.
  unfold scaled, isNull, QSize_scaled, thumbnail_of. simpl pm_width. simpl pm_height.
  set (W := Z.pos w). set (H := Z.pos h).
  assert (HW : 1 ≤ W) by (subst W; lia). assert (HH : 1 ≤ H) by (subst H; lia).
  destruct (Z.leb_spec W 0); [lia|]. destruct (Z.leb_spec H 0); [lia|].
  destruct (Z.eqb_spec W 0); [lia|]. destruct (Z.eqb_spec H 0); [lia|].
  cbn [orb]. change (100 <=? 0) with false. cbn [orb].
  rewrite !Z.quot_div_nonneg by lia.
  pose proof (Z.div_mod (100 * W) H ltac:(lia)) as E1.
  pose proof (Z.mod_pos_bound (100 * W) H ltac:(lia)) as B1.
  pose proof (Z.div_mod (100 * H) W ltac:(lia)) as E2.
  pose proof (Z.mod_pos_bound (100 * H) W ltac:(lia)) as B2.
  assert (P1 : 0 ≤ 100 * W / H) by (apply Z.div_pos; lia).
  assert (P2 : 0 ≤ 100 * H / W) by (apply Z.div_pos; lia).
  destruct (Z.leb_spec (100 * W / H) 100) as [Hle|Hgt];
    cbn [pm_width pm_height].
  - repeat split; try lia.
  - assert (100 * H / W ≤ 100) by nia.
    repeat split; try lia.
Qed.


Lemma loaded_fails env t image_url :
  load_fails env t image_url → loaded env t image_url = QPixmap_null.
Proof.
  unfold loaded, loadFromData.
  intros [H|[(e & H)|[(r & H & Hs)|(r & H & Hs & Hd)]]]; rewrite H; try done.
  - by destruct (truthy_opt image_url).
  - destruct (truthy_opt image_url); [|done].
    by destruct (Z.eqb_spec (status_code r) 200).
  - destruct (truthy_opt image_url); [|done].
    rewrite Hs, Hd. done.
Qed.

Lemma loaded_succeeds env t image_url pw ph :
  load_succeeds env t image_url pw ph →
  loaded env t image_url = {| pm_width := Z.pos pw; pm_height := Z.pos ph |}.
Proof.
  intros (Hu & r & H & Hs & Hd). unfold loaded, loadFromData.
  by rewrite Hu, H, Hs, Hd.
Qed.

Lemma load_fails_or_succeeds env t image_url :
  load_fails env t image_url ∨ ∃ pw ph, load_succeeds env t image_url pw ph.
Proof.
  unfold load_fails, load_succeeds.
  destruct (truthy_opt image_url); [|by left; left].
  destruct (requests_get env t (default "" image_url)) as [r|e].
  - destruct (decide (status_code r = 200)) as [Hs|Hs].
    + destruct (decode_image env (content r)) as [[pw ph]|] eqn:Hd.
      * right. exists pw, ph. eauto.
      * left. right. right. right. eauto.
    + left. right. right. left. eauto.
  - left. right. left. eauto.
Qed.

(** Whatever the network answers, [run] returns normally after posting one
    result for its label, and has changed neither the labels nor the
    rows. *)
Lemma LoadImageThread_run_eq env image_url link label w :
  ∃ w1,
    PostNewsTrial.LoadImageThread_run env image_url link label w = (Ret tt, w1)
    ∧ queue w1
      = queue w ++ [ImageLoaded label (loaded env (clock w) image_url) link]
    ∧ labels w1 = labels w
    ∧ news_widgets w1 = news_widgets w
    ∧ selected_index w1 = selected_index w
    ∧ threads w1 = threads w
    ∧ next_label w1 = next_label w.
Proof.
  unfold PostNewsTrial.LoadImageThread_run, loaded.
  destruct (truthy_opt image_url).
  - unfold try_except, net_get, bind, perform, modify, get, lift, print, post.
    simpl. destruct (requests_get env (clock w) _) as [r|e]; simpl.
    + destruct (status_code r =? 200); simpl;
        eexists; (split; [reflexivity|]); done.
    + eexists; (split; [reflexivity|]); done.
  - eexists; (split; [reflexivity|]); done.
Qed.

Lemma set_image_null label link w lb :
  labels w !! label = Some lb → lb_alive lb = true →
  PostNewsTrial.set_image label QPixmap_null link w
  = (Ret tt,
     set_labels (insert label {| lb_content := Text "No image available";
                                 lb_dblclick := lb_dblclick lb;
                                 lb_alive := lb_alive lb |}) w).
Proof.
  intros Hl Ha. unfold PostNewsTrial.set_image. simpl.
  unfold setText. by rewrite (QLabel_call_alive _ _ _ _ Hl Ha).
Qed.

Lemma set_image_picture label (pw ph : positive) link w lb :
  labels w !! label = Some lb → lb_alive lb = true →
  PostNewsTrial.set_image label
    {| pm_width := Z.pos pw; pm_height := Z.pos ph |} link w
  = (Ret tt,
     set_labels
       (insert label
          {| lb_content :=
               Pixmap (scaled {| pm_width := Z.pos pw; pm_height := Z.pos ph |}
                         100 100);
             lb_dblclick := Some link;
             lb_alive := lb_alive lb |}) w).
Proof.
  intros Hl Ha. unfold PostNewsTrial.set_image.
  change (isNull _) with false. cbn [negb].
  erewrite bind_ret_l.
  2:{ unfold setPixmap. by rewrite (QLabel_call_alive _ _ _ _ Hl Ha). }
  unfold set_mouseDoubleClickEvent, modify.
  destruct w; unfold set_labels; simpl. by rewrite alter_insert_eq.
Qed.

(** C4: an image thread of PostNewsTrial.py whose label is alive.  [run]
    returns normally and emits one result; delivered to [set_image], it
    leaves the text "No image available" on the label when there was no
    URL, a transport error, a status other than 200 or undecodable data, and
    the emitted pixmap is the null pixmap in these four cases alike; when a
    picture of [pw] by [ph] came back, the label shows it scaled into the
    100 by 100 bound with its proportions kept. *)
Theorem C4_image_load (env : Env) (image_url : option string) (link : string)
    (label : nat) (lb : QLabel) (w : World) :
  labels w !! label = Some lb →
  lb_alive lb = true →
  ∃ image w1 w2,
    PostNewsTrial.LoadImageThread_run env image_url link label w = (Ret tt, w1)
    ∧ emitted (PostNewsTrial.LoadImageThread_run env image_url link label) w
      = [ImageLoaded label image link]
    ∧ PostNewsTrial.handle (ImageLoaded label image link) w1 = (Ret tt, w2)
    ∧ (load_fails env (clock w) image_url
       ∨ ∃ pw ph, load_succeeds env (clock w) image_url pw ph)
    ∧ (load_fails env (clock w) image_url →
       image = QPixmap_null
       ∧ lb_content <$> labels w2 !! label = Some (Text "No image available"))
    ∧ (∀ pw ph, load_succeeds env (clock w) image_url pw ph →
       ∃ p, lb_content <$> labels w2 !! label = Some (Pixmap p)
            ∧ p = scaled image 100 100
            ∧ thumbnail_of (Z.pos pw) (Z.pos ph) p).
Proof.
  intros Hl Ha.
  destruct (LoadImageThread_run_eq env image_url link label w)
    as (w1 & E1 & Hq & Hlab & _).
  assert (Hl1 : labels w1 !! label = Some lb) by (by rewrite Hlab).
  assert (Hem : emitted (PostNewsTrial.LoadImageThread_run env image_url link label) w
                = [ImageLoaded label (loaded env (clock w) image_url) link]).
  { unfold emitted. rewrite E1. simpl. rewrite Hq. by rewrite drop_app_length. }
  destruct (load_fails_or_succeeds env (clock w) image_url)
    as [Hf|(pw & ph & Hs)].
  - pose proof (loaded_fails _ _ _ Hf) as Hnull.
    exists (loaded env (clock w) image_url), w1. eexists.
    split; [exact E1|]. split; [exact Hem|].
    split; [rewrite Hnull; apply (set_image_null label link w1 lb Hl1 Ha)|].
    split; [by left|]. split.
    + intros _. split; [done|]. simpl. by rewrite lookup_insert_eq.
    + intros pw ph Hs. pose proof (loaded_succeeds _ _ _ _ _ Hs) as Hp.
      rewrite Hnull in Hp. discriminate.
  - pose proof (loaded_succeeds _ _ _ _ _ Hs) as Hp.
    exists (loaded env (clock w) image_url), w1. eexists.
    split; [exact E1|]. split; [exact Hem|].
    split; [rewrite Hp; apply (set_image_picture label pw ph link w1 lb Hl1 Ha)|].
    split; [right; eauto|]. split.
    + intros Hf. pose proof (loaded_fails _ _ _ Hf) as Hnull.
      rewrite Hnull in Hp. discriminate.
    + intros pw' ph' Hs'. pose proof (loaded_succeeds _ _ _ _ _ Hs') as Hp'.
      rewrite Hp in Hp'. injection Hp' as <- <-.
      eexists. split; [simpl; by rewrite lookup_insert_eq|].
      split; [by rewrite Hp|]. apply scaled_thumbnail.
Qed.

Lemma C4_image_load_witness :
  ∃ image,
    emitted (PostNewsTrial.LoadImageThread_run Samples.env1
               (Some "http://i/1.jpg") "http://a" 0) Samples.one_row
    = [ImageLoaded 0 image "http://a"].
Proof.
  destruct (C4_image_load Samples.env1 (Some "http://i/1.jpg") "http://a" 0
              {| lb_content := Text "Loading image..."; lb_dblclick := None;
                 lb_alive := true |}
              Samples.one_row eq_refl eq_refl)
    as (image & w1 & w2 & _ & Hem & _).
  exists image. exact Hem.
Defined.

(** ** What an image result touches *)

(** [set_image] touches the label it was given and nothing else. *)
Lemma QLabel_call_frame label f w :
  ∃ r w', QLabel_call label f w = (r, w')
          ∧ news_widgets w' = news_widgets w
          ∧ selected_index w' = selected_index w
          ∧ ∀ l, l ≠ label → labels w' !! l = labels w !! l.
Proof.
  unfold QLabel_call. destruct (labels w !! label) as [lb|].
  - destruct (lb_alive lb).
    + eexists _, _. split; [reflexivity|]. simpl. repeat split; try done.
      intros l Hl. by rewrite lookup_insert_ne.
    + eexists _, _. split; [reflexivity|]. done.
  - eexists _, _. split; [reflexivity|]. done.
Qed.

Lemma set_image_frame label image link w :
  ∃ r w', PostNewsTrial.set_image label image link w = (r, w')
          ∧ news_widgets w' = news_widgets w
          ∧ selected_index w' = selected_index w
          ∧ ∀ l, l ≠ label → labels w' !! l = labels w !! l.
Proof.
  unfold PostNewsTrial.set_image. destruct (negb (isNull image)).
  - unfold bind, setPixmap, set_mouseDoubleClickEvent.
    destruct (QLabel_call_frame label
                (λ lb, {| lb_content := Pixmap (scaled image 100 100);
                          lb_dblclick := lb_dblclick lb;
                          lb_alive := lb_alive lb |}) w)
      as (r1 & w1 & E1 & Hw1 & Hs1 & Hl1).
    rewrite E1. destruct r1 as [[]|e].
    + eexists _, _. split; [reflexivity|]. simpl.
      rewrite Hw1, Hs1. repeat split; try done.
      intros l Hl. rewrite lookup_alter_ne by done. by apply Hl1.
    + exists (Raise e), w1. done.
  - apply QLabel_call_frame.
Qed.


(** ** Threads and the network *)


Global Instance adds_preorder Q : PreOrder (adds Q).
Proof.
  split.
  - intros w. split; [done|]. exists []. by rewrite app_nil_r.
  - intros w1 w2 w3 (Hr1 & tr1 & E1 & F1) (Hr2 & tr2 & E2 & F2).
    split; [congruence|]. exists (tr1 ++ tr2).
    split; [by rewrite E2, E1, app_assoc|].
    apply Forall_app. split; [done|]. by rewrite <- Hr1.
Qed.

Lemma modify_adds Q f :
  (∀ w, running_on (f w) = running_on w) → (∀ w, trace (f w) = trace w) →
  preserves (adds Q) (modify f).
Proof.
  intros Hr Ht w. split; simpl; [done|]. exists [].
  by rewrite Ht, app_nil_r.
Qed.

Lemma perform_adds (Q : effect → Prop) e : Q e → preserves (adds Q) (perform e).
Proof.
  intros He w. split; simpl; [done|]. exists [(running_on w, e)].
  split; [done|]. by repeat constructor.
Qed.

Lemma QLabel_call_adds Q l f : preserves (adds Q) (QLabel_call l f).
Proof.
  intros w. unfold QLabel_call. destruct (labels w !! l) as [lb|]; [|done].
  destruct (lb_alive lb); [|done]. split; simpl; [done|]. exists [].
  by rewrite app_nil_r.
Qed.

Ltac adds_only :=
  preserve;
  first [ (apply perform_adds; first [exact I | reflexivity])
        | apply QLabel_call_adds
        | (apply modify_adds; intros; reflexivity)
        | idtac ].


Global Instance grows_preorder G : PreOrder (grows G).
Proof.
  split.
  - intros w. exists []. by rewrite app_nil_r.
  - intros w1 w2 w3 (tr1 & E1 & F1) (tr2 & E2 & F2). exists (tr1 ++ tr2).
    split; [by rewrite E2, E1, app_assoc|]. by apply Forall_app.
Qed.

Lemma on_thread_grows {A} (Q : effect → Prop) G t (m : Py A) :
  (∀ e, Q e → G (t, e)) →
  preserves (adds Q) m → preserves (grows G) (on_thread t m).
Proof.
  intros HQ Hm w. unfold on_thread.
  destruct (Hm (set_running_on t w)) as (_ & tr & E & F).
  destruct (m (set_running_on t w)) as [r w']. simpl in *.
  exists tr. split; [done|].
  eapply Forall_impl; [exact F|]. intros [t' e] [Ht He]. simpl in *.
  subst t'. by apply HQ.
Qed.

Lemma modify_grows G f :
  (∀ w, trace (f w) = trace w) → preserves (grows G) (modify f).
Proof. intros Ht w. exists []. simpl. by rewrite Ht, app_nil_r. Qed.

Section Scheduler.
Variables (run : Py unit) (create : NewsItem → Py QWidget).
Variables (on_image : nat → QPixmap → string → Py unit).
Variables (load : option string → string → nat → Py unit).
(** What a worker may do, what the interaction thread may do, and what
    this amounts to for the trace. *)
Variables (Qw Qu : effect → Prop) (G : thread * effect → Prop).
Hypothesis Hw : ∀ e, Qw e → G (WorkerThread, e).
Hypothesis Hu : ∀ e, Qu e → G (UIThread, e).
Hypothesis Hquiet : ∀ e, is_network e = false → Qu e.
Hypothesis Hrun : preserves (adds Qw) run.
Hypothesis Hload : ∀ u l lbl, preserves (adds Qw) (load u l lbl).
Hypothesis Hcreate : ∀ item, preserves (adds Qu) (create item).
Hypothesis Himage : ∀ l i k, preserves (adds Qu) (on_image l i k).

Lemma open_link_adds link : preserves (adds Qu) (open_link link).
Proof.
  unfold open_link. preserve. apply perform_adds. by apply Hquiet.
Qed.

Lemma keyPressEvent_adds k : preserves (adds Qu) (keyPressEvent k).
Proof.
  unfold keyPressEvent, update_highlight, scroll_to_selected.
  destruct k; adds_only; apply perform_adds; by apply Hquiet.
Qed.

Lemma display_news_adds news_items :
  preserves (adds Qu) (display_news create news_items).
Proof.
  unfold display_news, deleteLater, post, update_highlight.
  adds_only. apply Hcreate.
Qed.

Lemma handle_adds ev : preserves (adds Qu) (handle create on_image ev).
Proof.
  unfold handle. destruct ev.
  - apply display_news_adds.
  - apply Himage.
  - apply keyPressEvent_adds.
  - adds_only; apply open_link_adds.
  - adds_only; apply open_link_adds.
  - adds_only.
Qed.

Lemma step_grows s : preserves (grows G) (step run create on_image load s).
Proof.
  unfold step. destruct s as [k| |ev].
  - preserve.
    + apply modify_grows. by intros.
    + apply (on_thread_grows Qw); [exact Hw|].
      match goal with |- preserves _ (QThread_run _ _ ?th) =>
        destruct th; simpl; [apply Hrun|apply Hload] end.
  - preserve.
    + apply modify_grows. by intros.
    + apply (on_thread_grows Qu); [exact Hu|]. apply handle_adds.
  - apply modify_grows. by intros.
Qed.

Lemma main_grows ss :
  Forall G (trace (main run create on_image load ss boot).2).
Proof.
  assert (H : preserves (grows G) (main run create on_image load ss)).
  { unfold main, exec, initUI, fetch_news, QThread_start. preserve.
    - apply (on_thread_grows Qu); [exact Hu|]. adds_only.
    - apply step_grows. }
  destruct (H boot) as (tr & E & F). simpl in E. by rewrite E.
Qed.
End Scheduler.



Lemma fetch_run_adds env add Q :
  (∀ url, Q (NetFeed url)) →
  (∀ entry acc, preserves (adds Q) (add entry acc)) →
  preserves (adds Q) (FetchNewsThread_run env add).
Proof.
  intros HQ Hadd. unfold FetchNewsThread_run, fetch_body, net_feed, post.
  adds_only; [by apply perform_adds|apply Hadd].
Qed.

Lemma extract_image_url_adds env entry Q :
  preserves (adds Q) (extract_image_url env entry).
Proof. unfold extract_image_url. adds_only. Qed.

Lemma PostNews_run_adds env :
  preserves (adds not_get) (PostNews.FetchNewsThread_run env).
Proof.
  apply fetch_run_adds; [done|]. intros entry acc.
  unfold PostNews.add_entry. adds_only. apply extract_image_url_adds.
Qed.

Lemma PostNewsTrial_run_adds env :
  preserves (adds (λ _, True)) (PostNewsTrial.FetchNewsThread_run env).
Proof.
  apply fetch_run_adds; [done|]. intros entry acc.
  unfold PostNewsTrial.add_entry, print. adds_only.
  apply extract_image_url_adds.
Qed.

Lemma LoadImageThread_run_adds env u l lbl :
  preserves (adds (λ _, True)) (PostNewsTrial.LoadImageThread_run env u l lbl).
Proof.
  unfold PostNewsTrial.LoadImageThread_run, net_get, print, post. adds_only.
Qed.

Lemma PostNews_create_adds env item :
  preserves (adds not_feed) (PostNews.create_news_widget env item).
Proof.
  unfold PostNews.create_news_widget, QLabel_new, net_get, print, setPixmap,
    setText, set_mouseDoubleClickEvent.
  adds_only.
Qed.

Lemma PostNewsTrial_create_adds item :
  preserves (adds (λ e, is_network e = false))
    (PostNewsTrial.create_news_widget item).
Proof.
  unfold PostNewsTrial.create_news_widget, QLabel_new, setText, QThread_start.
  adds_only.
Qed.

Lemma set_image_adds Q label image link :
  preserves (adds Q) (PostNewsTrial.set_image label image link).
Proof.
  unfold PostNewsTrial.set_image, setPixmap, setText,
    set_mouseDoubleClickEvent.
  adds_only.
Qed.

(** C8, as stated, fails: PostNews.py requests the picture of a row from the
    interaction thread, while it builds the row. *)
Lemma C8_counterexample :
  ¬ (∀ v env ss, network_off_ui (trace (main_of v env ss boot).2)).
Proof.
  intros H.
  specialize (H PostNews_py Samples.env1 [RunThread 0; Dispatch]).
  vm_compute in H.
  apply Forall_cons in H as [_ H]. apply Forall_cons in H as [H _].
  specialize (H eq_refl). discriminate.
Qed.

(** C8, amended: whatever the schedule, in PostNewsTrial.py every request
    to the network is made by a worker thread; in PostNews.py the feed is
    requested by a worker thread and every picture by the interaction
    thread. *)
Theorem C8_network_threads (env : Env) (ss : list sched) :
  network_off_ui (trace (PostNewsTrial.main env ss boot).2)
  ∧ images_on_ui (trace (PostNews.main env ss boot).2).
Proof.
  split.
  - apply (main_grows _ _ _ _ (λ _, True) (λ e, is_network e = false)).
    + intros e _ _. reflexivity.
    + intros e He. simpl. rewrite He. discriminate.
    + auto.
    + apply PostNewsTrial_run_adds.
    + apply LoadImageThread_run_adds.
    + apply PostNewsTrial_create_adds.
    + intros. apply set_image_adds.
  - apply (main_grows _ _ _ _ not_get not_feed).
    + intros [] He; simpl; done.
    + intros [] He; simpl; done.
    + by intros [].
    + apply PostNews_run_adds.
    + intros. unfold PostNews.no_image_thread. apply (preserves_ret _).
    + apply PostNews_create_adds.
    + intros. unfold PostNews.no_image_signal. apply (preserves_ret _).
Qed.

(** * Further properties of the code *)

Global Instance unchanged_preorder {A} (f : World → A) : PreOrder (unchanged f).
Proof.
  split; [by intros w|]. intros w1 w2 w3 H1 H2. unfold unchanged in *.
  congruence.
Qed.

Global Instance keeps_preorder P : PreOrder (keeps P).
Proof.
  split; [intros w H; exact H|]. intros w1 w2 w3 H1 H2 H. apply H2, H1, H.
Qed.

Lemma modify_unchanged {A} (f : World → A) g :
  (∀ w, f (g w) = f w) → preserves (unchanged f) (modify g).
Proof. intros H w. apply H. Qed.

Lemma QLabel_call_unchanged {A} (f : World → A) l g :
  (∀ h w, f (set_labels h w) = f w) →
  preserves (unchanged f) (QLabel_call l g).
Proof.
  intros H w. unfold QLabel_call. destruct (labels w !! l) as [lb|]; [|done].
  destruct (lb_alive lb); [|done]. apply H.
Qed.

(** ** The highlight *)

Lemma highlighted_view sel i r : row_view (highlighted sel i r) = row_view r.
Proof. unfold highlighted. by destruct (Z.of_nat i =? sel). Qed.

Lemma highlighted_style sel i r :
  widget_styleSheet (highlighted sel i r)
  = if Z.of_nat i =? sel then lightblue else none_colour.
Proof. unfold highlighted. by destruct (Z.of_nat i =? sel). Qed.

Lemma imap_highlighted_view sel rows :
  row_view <$> imap (highlighted sel) rows = row_view <$> rows.
Proof.
  rewrite fmap_imap. rewrite <- (imap_const row_view rows).
  apply imap_ext. intros i r _. apply highlighted_view.
Qed.

Lemma imap_highlighted_style sel rows :
  widget_styleSheet <$> imap (highlighted sel) rows
  = imap (λ i _, if Z.of_nat i =? sel then lightblue else none_colour) rows.
Proof.
  rewrite fmap_imap. apply imap_ext. intros i r _. apply highlighted_style.
Qed.

Lemma imap_highlighted_idem sel rows :
  imap (highlighted sel) (imap (highlighted sel) rows)
  = imap (highlighted sel) rows.
Proof.
  rewrite imap_imap. apply imap_ext. intros i r _.
  unfold highlighted. by destruct (Z.of_nat i =? sel).
Qed.

Lemma update_highlight_run w :
  update_highlight w
  = (Ret tt, set_news_widgets (imap (highlighted (selected_index w))) w).
Proof. reflexivity. Qed.

Lemma imap_ignore {A B C} (g : nat → C) (l1 : list A) (l2 : list B) :
  length l1 = length l2 → imap (λ i _, g i) l1 = imap (λ i _, g i) l2.
Proof.
  revert g l2. induction l1 as [|x l1 IH]; intros g [|y l2] Hlen;
    simplify_eq/=; [done|].
  f_equal. apply (IH (g ∘ S)). done.
Qed.

Lemma highlight_ok_imap sel w :
  selected_index w = sel →
  highlight_ok (set_news_widgets (imap (highlighted sel)) w).
Proof.
  intros <-. unfold highlight_ok. simpl.
  rewrite imap_highlighted_style.
  apply (imap_ignore (λ i, if Z.of_nat i =? selected_index w
                           then lightblue else none_colour)).
  by rewrite length_imap.
Qed.

(** X1: [update_highlight] never raises and touches nothing but the style
    sheets; afterwards the style sheets are those of the selection, and a
    second call changes nothing. *)
Theorem update_highlight_idempotent (w : World) :
  ∃ w1,
    update_highlight w = (Ret tt, w1)
    ∧ update_highlight w1 = (Ret tt, w1)
    ∧ highlight_ok w1
    ∧ row_view <$> news_widgets w1 = row_view <$> news_widgets w
    ∧ selected_index w1 = selected_index w
    ∧ labels w1 = labels w ∧ queue w1 = queue w ∧ trace w1 = trace w.
Proof.
  eexists. split; [apply update_highlight_run|].
  split; [|split; [by apply highlight_ok_imap|split;
                   [apply imap_highlighted_view|done]]].
  rewrite update_highlight_run. cbn [selected_index set_news_widgets].
  destruct w; unfold set_news_widgets; simpl.
  by rewrite imap_highlighted_idem.
Qed.

(** ** Scrolling to the selection *)

Lemma py_getitem_spec {A} (l : list A) (i : Z) :
  let n := Z.of_nat (length l) in
  (- n ≤ i < n →
   ∃ x, l !! Z.to_nat (i `mod` n) = Some x ∧ py_getitem l i = Ret x)
  ∧ (¬ (- n ≤ i < n) → py_getitem l i = Raise IndexError).
Proof.
  cbv zeta. unfold py_getitem. set (n := Z.of_nat (length l)).
  split.
  - intros Hi. destruct (Z.ltb_spec i 0).
    + assert (Hmod : i `mod` n = i + n).
      { symmetry. apply (Z.mod_unique_pos i n (-1) (i + n)); lia. }
      rewrite Hmod.
      destruct (Z.leb_spec 0 (i + n)); [|lia].
      destruct (Z.ltb_spec (i + n) n); [|lia]. simpl.
      destruct (lookup_lt_is_Some_2 l (Z.to_nat (i + n))) as [x Hx]; [lia|].
      exists x. by rewrite Hx.
    + rewrite Z.mod_small by lia.
      destruct (Z.leb_spec 0 i); [|lia].
      destruct (Z.ltb_spec i n); [|lia]. simpl.
      destruct (lookup_lt_is_Some_2 l (Z.to_nat i)) as [x Hx]; [lia|].
      exists x. by rewrite Hx.
  - intros Hi. destruct (Z.ltb_spec i 0).
    + destruct (Z.leb_spec 0 (i + n)); [|done].
      destruct (Z.ltb_spec (i + n) n); [lia|done].
    + destruct (Z.leb_spec 0 i); [|lia].
      destruct (Z.ltb_spec i n); [lia|done].
Qed.

(** X2: [scroll_to_selected] with K rows and selection i.  For
    -K <= i < K it makes one row visible and changes nothing else: the row at
    index i, and for a negative i the row at K + i, counted from the end as
    Python does.  For any other i it raises IndexError and changes
    nothing. *)
Theorem scroll_to_selected_range (w : World) :
  let K := Z.of_nat (length (news_widgets w)) in
  let i := selected_index w in
  (- K ≤ i < K →
   ∃ row, news_widgets w !! Z.to_nat (i `mod` K) = Some row
          ∧ scroll_to_selected w
            = (Ret tt,
               set_trace (λ tr, tr ++ [(running_on w, EnsureVisible row)]) w))
  ∧ (¬ (- K ≤ i < K) → scroll_to_selected w = (Raise IndexError, w)).
Proof.
  cbv zeta. unfold scroll_to_selected.
  destruct (py_getitem_spec (news_widgets w) (selected_index w)) as [Hin Hout].
  split.
  - intros Hi. destruct (Hin Hi) as (row & Hrow & E). exists row.
    split; [exact Hrow|].
    erewrite bind_ret_l; [|reflexivity]. erewrite bind_ret_l; [|reflexivity].
    unfold bind, lift. by rewrite E.
  - intros Hi.
    erewrite bind_ret_l; [|reflexivity]. erewrite bind_ret_l; [|reflexivity].
    unfold bind, lift. by rewrite (Hout Hi).
Qed.

(** ** Keys and rows *)

Lemma keyPressEvent_unchanged {A} (f : World → A) k :
  (∀ g w, f (set_news_widgets (imap (highlighted g)) w) = f w) →
  (∀ i w, f (set_selected_index i w) = f w) →
  (∀ g w, f (set_trace g w) = f w) →
  preserves (unchanged f) (keyPressEvent k).
Proof.
  intros Hrows Hsel Htrace.
  unfold keyPressEvent, update_highlight, scroll_to_selected, perform.
  destruct k; preserve; apply modify_unchanged; intros w';
    first [apply Hsel | apply Htrace | apply (Hrows _ w')].
Qed.

(** X3: a key press, whether it returns or raises, changes no row apart
    from its style sheet: the rows keep their number, their order, their
    titles, their links and their image labels; the labels, the queue and
    the started threads are untouched. *)
Theorem keyPressEvent_keeps_rows (k : key) (w : World) :
  let w' := (keyPressEvent k w).2 in
  row_view <$> news_widgets w' = row_view <$> news_widgets w
  ∧ labels w' = labels w
  ∧ queue w' = queue w
  ∧ threads w' = threads w.
Proof.
  cbv zeta. repeat split.
  - apply (keyPressEvent_unchanged (λ w, row_view <$> news_widgets w));
      try done.
    intros g w0. simpl. apply imap_highlighted_view.
  - by apply (keyPressEvent_unchanged labels).
  - by apply (keyPressEvent_unchanged queue).
  - by apply (keyPressEvent_unchanged threads).
Qed.

(** X4: after [initUI] there is no row, the selection is 0 and one feed
    thread more is started; until a batch arrives no key raises and no key
    changes anything. *)
Theorem keys_before_first_batch (w : World) (keys : list key) :
  ∃ w0,
    initUI w = (Ret tt, w0)
    ∧ news_widgets w0 = []
    ∧ selected_index w0 = 0
    ∧ threads w0 = threads w ++ [FetchNewsThread]
    ∧ for_each keys keyPressEvent w0 = (Ret tt, w0).
Proof.
  eexists. split; [reflexivity|]. repeat split.
  induction keys as [|k keys IH]; [done|].
  cbn [for_each]. erewrite bind_ret_l; [exact IH|]. by destruct k.
Qed.

(** ** The highlight follows the selection *)

Lemma scroll_to_selected_frame w :
  news_widgets (scroll_to_selected w).2 = news_widgets w
  ∧ selected_index (scroll_to_selected w).2 = selected_index w.
Proof.
  unfold scroll_to_selected.
  erewrite bind_ret_l; [|reflexivity]. erewrite bind_ret_l; [|reflexivity].
  unfold bind, lift.
  by destruct (py_getitem (news_widgets w) (selected_index w)).
Qed.

Lemma move_highlight_ok i w :
  highlight_ok
    ((modify (set_selected_index i) >> update_highlight >>
      scroll_to_selected) w).2.
Proof.
  erewrite bind_ret_l; [|reflexivity].
  erewrite bind_ret_l; [|apply update_highlight_run].
  cbn [selected_index set_selected_index].
  set (w2 := set_news_widgets _ _).
  assert (H2 : highlight_ok w2) by (by apply highlight_ok_imap).
  destruct (scroll_to_selected_frame w2) as [Hr Hs].
  unfold highlight_ok in *. by rewrite Hr, Hs.
Qed.

Lemma keyPressEvent_highlight_ok k :
  preserves (keeps highlight_ok) (keyPressEvent k).
Proof.
  intros w Hw. unfold keyPressEvent. destruct k; [| |exact Hw].
  - erewrite bind_ret_l; [|reflexivity]. erewrite bind_ret_l; [|reflexivity].
    destruct (_ <? _); [apply move_highlight_ok|exact Hw].
  - erewrite bind_ret_l; [|reflexivity].
    destruct (_ >? _); [apply move_highlight_ok|exact Hw].
Qed.

Lemma display_news_highlight_ok create news_items :
  creates_row create →
  preserves (keeps highlight_ok) (display_news create news_items).
Proof.
  intros Hc w _.
  destruct (display_news_spec create Hc news_items w)
    as (w' & E & Hws & Hsel & _).
  rewrite E. simpl. unfold highlight_ok. rewrite Hws, Hsel.
  rewrite fmap_imap, imap_imap.
  destruct news_items as [|item items]; [done|].
  apply imap_ext. intros i x _. simpl. apply highlighted_style.
Qed.

Lemma highlight_ok_same w w' :
  news_widgets w' = news_widgets w → selected_index w' = selected_index w →
  keeps highlight_ok w w'.
Proof. intros Hr Hs. unfold keeps, highlight_ok. by rewrite Hr, Hs. Qed.

Lemma open_link_highlight_ok link :
  preserves (keeps highlight_ok) (open_link link).
Proof.
  intros w. unfold open_link. destruct (truthy link); [|by intros H].
  by apply highlight_ok_same.
Qed.

Lemma handle_highlight_ok v env ev :
  preserves (keeps highlight_ok) (handle_of v env ev).
Proof.
  assert (Hclick : ∀ create on_image row,
            preserves (keeps highlight_ok)
              (handle create on_image (TitleDoubleClick row))
            ∧ preserves (keeps highlight_ok)
                (handle create on_image (ImageDoubleClick row))).
  { intros create on_image row. unfold handle.
    split; preserve; apply open_link_highlight_ok. }
  assert (Hdel : ∀ create on_image ls,
            preserves (keeps highlight_ok)
              (handle create on_image (DeferredDelete ls))).
  { intros create on_image ls w. by apply highlight_ok_same. }
  destruct v; unfold handle_of, PostNews.handle, PostNewsTrial.handle;
    destruct ev; try apply Hclick; try apply Hdel;
    try apply keyPressEvent_highlight_ok.
  - apply display_news_highlight_ok, PostNews_creates_row.
  - intros w H. exact H.
  - intros w _.
    change (highlight_ok (PostNewsTrial.display_news news_items w).2).
    destruct news_items as [|item items];
      [rewrite PostNewsTrial_display_news_nil
      |rewrite PostNewsTrial_display_news_cons]; done.
  - intros w. simpl.
    destruct (set_image_frame label image link w) as (r & w' & E & Hr & Hs & _).
    rewrite E. by apply highlight_ok_same.
Qed.

Lemma on_thread_keeps {A} (P : World → Prop) t (m : Py A) :
  (∀ t' w, P (set_running_on t' w) ↔ P w) →
  preserves (keeps P) m → preserves (keeps P) (on_thread t m).
Proof.
  intros HP Hm w Hw. unfold on_thread.
  specialize (Hm (set_running_on t w)).
  destruct (m (set_running_on t w)) as [r w']. simpl in *.
  apply HP, Hm, HP, Hw.
Qed.

(** X5: whatever events the interaction thread handles after the start, in
    either file, and whether or not one of them raises, the style sheets of
    the rows are those of the selection: no row but the selected one is
    ever left highlighted. *)
Theorem highlight_follows_selection (v : variant) (env : Env)
    (evs : list event) :
  highlight_ok (handle_all_of v env evs boot).2.
Proof.
  rewrite handle_all_of_eq.
  assert (H : preserves (keeps highlight_ok)
                (for_each evs
                   (λ ev, on_thread UIThread (handle_of v env ev)))).
  { preserve. apply on_thread_keeps; [done|]. apply handle_highlight_ok. }
  by apply H.
Qed.

(** ** No exception without an empty batch *)

Lemma selection_valid_same w w' :
  news_widgets w' = news_widgets w → selected_index w' = selected_index w →
  selection_valid w → selection_valid w'.
Proof. intros Hr Hs. unfold selection_valid. by rewrite Hr, Hs. Qed.

Lemma open_link_valid link w :
  selection_valid w →
  ∃ w', open_link link w = (Ret tt, w') ∧ selection_valid w'.
Proof.
  intros Hw. rewrite open_link_eq. eexists. split; [reflexivity|].
  destruct (decide (link = "")); [done|]. by eapply selection_valid_same.
Qed.

Lemma handle_valid env ev w :
  no_empty_batch ev → selection_valid w →
  ∃ w', PostNews.handle env ev w = (Ret tt, w') ∧ selection_valid w'.
Proof.
  intros Hev Hw. destruct ev as [items| |k|row|row|ls]; simpl in Hev.
  - destruct (PostNews_display_news_valid env items w) as (w' & E & Hw');
      [by left|].
    by exists w'.
  - by exists w.
  - destruct (keyPressEvent_valid k w Hw) as (w' & E & Hw' & _).
    by exists w'.
  - assert (E : PostNews.handle env (TitleDoubleClick row) w
                = match news_widgets w !! row with
                  | Some widget => open_link (widget_title_dblclick widget) w
                  | None => (Ret tt, w)
                  end).
    { unfold PostNews.handle, handle. erewrite bind_ret_l; [|reflexivity].
      by destruct (news_widgets w !! row). }
    rewrite E. destruct (news_widgets w !! row); [|by exists w].
    by apply open_link_valid.
  - assert (E : ∃ o, PostNews.handle env (ImageDoubleClick row) w
                     = match o with
                       | Some link => open_link link w
                       | None => (Ret tt, w)
                       end).
    { unfold PostNews.handle, handle.
      erewrite bind_ret_l; [|reflexivity]. erewrite bind_ret_l; [|reflexivity].
      destruct (news_widgets w !! row) as [widget|]; [|by exists None].
      destruct (labels w !! widget_image_label widget) as [lb|];
        [|by exists None].
      exists (lb_dblclick lb). by destruct (lb_dblclick lb). }
    destruct E as [[link|] E]; rewrite E; [|by exists w].
    by apply open_link_valid.
  - eexists. split; [done|]. by eapply selection_valid_same.
Qed.

(** X6: in PostNews.py nothing raises while no empty batch arrives.  From
    a state with a valid selection (an index of the row list, or 0 without
    rows), the interaction thread handles any sequence of events that holds
    no empty batch without an exception, and the selection is valid at the
    end. *)
Theorem no_exception_without_empty_batch (env : Env) (evs : list event)
    (w : World) :
  selection_valid w →
  Forall no_empty_batch evs →
  ∃ w', PostNews.handle_all env evs w = (Ret tt, w') ∧ selection_valid w'.
Proof.
  unfold PostNews.handle_all, handle_all. revert w.
  induction evs as [|ev evs IH]; intros w Hw Hevs; [by exists w|].
  apply Forall_cons in Hevs as [Hev Hevs].
  destruct (handle_valid env ev (set_running_on UIThread w) Hev Hw)
    as (w1 & E1 & Hw1).
  destruct (IH (set_running_on (running_on w) w1) Hw1 Hevs)
    as (w2 & E2 & Hw2).
  exists w2. split; [|exact Hw2]. cbn [for_each].
  erewrite bind_ret_l; [exact E2|]. by apply on_thread_eq.
Qed.

Lemma no_exception_without_empty_batch_witness :
  ∃ w', PostNews.handle_all Samples.quiet
          [KeyPress Key_Down; KeyPress Key_Down; KeyPress Key_Down;
           NewsFetched [Samples.item "d" "http://d" None];
           KeyPress Key_Up; TitleDoubleClick 0]
          Samples.three_rows = (Ret tt, w')
        ∧ selection_valid w'.
Proof.
  apply (no_exception_without_empty_batch Samples.quiet).
  - right. change (0 ≤ 0 < 3). lia.
  - repeat constructor. simpl. discriminate.
Defined.

(** ** Replacing the rows *)

(** Finishes the leaves of a goal [preserves (unchanged f) m]. *)
Ltac leave_unchanged :=
  preserve;
  first [ (apply modify_unchanged; intros; reflexivity)
        | (apply QLabel_call_unchanged; intros; reflexivity)
        | idtac ].

Lemma PostNews_create_queue env item :
  preserves (unchanged (λ w, (queue w, threads w)))
    (PostNews.create_news_widget env item).
Proof.
  unfold PostNews.create_news_widget, QLabel_new, net_get, print, perform,
    setPixmap, setText, set_mouseDoubleClickEvent.
  leave_unchanged.
Qed.

Lemma display_news_queue create news_items w :
  (∀ item, preserves (unchanged queue) (create item)) →
  queue (display_news create news_items w).2
  = queue w ++ deletions (news_widgets w).
Proof.
  intros Hc. unfold display_news.
  erewrite bind_ret_l; [|reflexivity].
  erewrite bind_ret_l; [|apply for_each_deleteLater].
  set (w0 := set_queue _ w).
  assert (Hrest : preserves (unchanged queue)
            (modify (set_news_widgets (λ _, [])) >>
             for_each news_items
               (λ item, let* news_widget := create item in
                        modify (set_news_widgets (λ ws, ws ++ [news_widget]))) >>
             let* ws := get news_widgets in
             match ws with
             | [] => ret tt
             | _ :: _ => modify (set_selected_index 0) >> update_highlight
             end)).
  { unfold update_highlight. leave_unchanged. apply Hc. }
  rewrite (Hrest w0). reflexivity.
Qed.

(** What [display_news] does to a part of the world that neither the row
    list nor the selection enters is what its loop over the items does to
    it. *)
Lemma display_news_via_loop {A} (f : World → A) create news_items w :
  (∀ g w, f (set_news_widgets g w) = f w) →
  (∀ i w, f (set_selected_index i w) = f w) →
  f (display_news create news_items w).2
  = f (for_each news_items
         (λ item, let* news_widget := create item in
                  modify (set_news_widgets (λ ws, ws ++ [news_widget])))
         (set_news_widgets (λ _, [])
            (set_queue (λ q, q ++ deletions (news_widgets w)) w))).2.
Proof.
  intros Hrows Hsel. unfold display_news.
  erewrite bind_ret_l; [|reflexivity].
  erewrite bind_ret_l; [|apply for_each_deleteLater].
  erewrite bind_ret_l; [|reflexivity].
  fold (deletions (news_widgets w)). set (w0 := set_news_widgets _ _).
  unfold bind at 1.
  destruct (for_each news_items _ w0) as [[[]|e] w1]; [|done].
  erewrite bind_ret_l; [|reflexivity].
  destruct (news_widgets w1) as [|r rs]; [done|].
  erewrite bind_ret_l; [|reflexivity]. rewrite update_highlight_run.
  simpl. by rewrite Hrows, Hsel.
Qed.

Global Instance allocates_preorder : PreOrder allocates.
Proof.
  split.
  - intros w. split; [done|]. intros l H. by left.
  - intros w1 w2 w3 [Hn1 H1] [Hn2 H2]. split; [lia|].
    intros l H. destruct (H2 l H) as [H'|H']; [|right; lia].
    destruct (H1 l H') as [H''|H'']; [by left|right; lia].
Qed.

Lemma modify_allocates f :
  (∀ w, labels (f w) = labels w) → (∀ w, next_label (f w) = next_label w) →
  preserves allocates (modify f).
Proof.
  intros Hl Hn w. split; simpl; [by rewrite Hn|].
  intros l H. left. by rewrite <- Hl.
Qed.

Lemma QLabel_new_allocates : preserves allocates QLabel_new.
Proof.
  intros w. rewrite QLabel_new_eq. split; simpl; [lia|].
  intros l H. destruct (decide (l = next_label w)) as [->|Hne].
  - right. lia.
  - left. by rewrite lookup_insert_ne in H.
Qed.

Lemma QLabel_call_allocates l f : preserves allocates (QLabel_call l f).
Proof.
  intros w. unfold QLabel_call.
  destruct (labels w !! l) as [lb|] eqn:Hl; [|reflexivity].
  destruct (lb_alive lb); [|reflexivity]. split; simpl; [done|].
  intros l' H. left. destruct (decide (l' = l)) as [->|Hne].
  - by rewrite Hl.
  - by rewrite lookup_insert_ne in H.
Qed.

Lemma set_mouseDoubleClickEvent_allocates l link :
  preserves allocates (set_mouseDoubleClickEvent l link).
Proof.
  intros w. split; simpl; [done|]. intros l' H. left.
  destruct (decide (l' = l)) as [->|Hne].
  - rewrite lookup_alter_eq in H. destruct (labels w !! l); [done|].
    by destruct H.
  - by rewrite lookup_alter_ne in H.
Qed.

Lemma PostNews_display_news_allocates env news_items :
  preserves allocates (PostNews.display_news env news_items).
Proof.
  unfold PostNews.display_news, display_news, deleteLater, post,
    update_highlight, PostNews.create_news_widget, net_get, print, perform,
    setPixmap, setText.
  preserve;
    first [ apply QLabel_new_allocates
          | apply QLabel_call_allocates
          | apply set_mouseDoubleClickEvent_allocates
          | (apply modify_allocates; intros; reflexivity) ].
Qed.

(** X7: [display_news] of PostNews.py replaces the rows wholesale: for
    every row it replaces, in order, one deferred deletion is posted and
    nothing else; the new row list is built from the new items alone; and
    when every label that exists was made by [QLabel()], which stays so,
    the image label of every new row is an object that did not exist
    before the call. *)
Theorem display_news_replaces_rows (env : Env) (news_items : list NewsItem)
    (w : World) :
  labels_below_next w →
  let w' := (PostNews.display_news env news_items w).2 in
  queue w' = queue w ++ deletions (news_widgets w)
  ∧ news_widgets w'
    = imap (λ i item, highlighted 0 i (row_of item (next_label w + i)))
           news_items
  ∧ (∀ row, row ∈ news_widgets w' →
            labels w !! widget_image_label row = None)
  ∧ labels_below_next w'.
Proof.
  intros Hbelow. cbv zeta.
  assert (Hq : queue (PostNews.display_news env news_items w).2
               = queue w ++ deletions (news_widgets w)).
  { apply display_news_queue. intros item w0.
    pose proof (PostNews_create_queue env item w0) as H.
    unfold unchanged in *. by injection H. }
  destruct (PostNews_display_news_allocates env news_items w) as [Hn Hdom].
  destruct (display_news_spec _ (PostNews_creates_row env) news_items w)
    as (w' & E & Hws & _).
  unfold PostNews.display_news in *. rewrite E in *. simpl in *.
  split; [exact Hq|]. split; [exact Hws|]. split.
  - intros row Hrow. rewrite Hws in Hrow.
    apply list_elem_of_lookup in Hrow as [i Hi].
    rewrite list_lookup_imap in Hi.
    destruct (news_items !! i) as [item|] eqn:Hitem; [|done]. simpl in Hi.
    injection Hi as <-.
    change (widget_image_label (highlighted 0 i (row_of item (next_label w + i))))
      with (row_view (highlighted 0 i (row_of item (next_label w + i)))).2.
    rewrite highlighted_view. simpl.
    destruct (labels w !! (next_label w + i)%nat) eqn:Hl; [|done].
    assert (next_label w + i < next_label w)%nat; [|lia].
    apply Hbelow. by rewrite Hl.
  - intros l Hl. destruct (Hdom l Hl) as [H|H]; [|lia].
    specialize (Hbelow l H). lia.
Qed.

Lemma display_news_replaces_rows_witness :
  let w' := (PostNews.display_news Samples.quiet
               [Samples.item "d" "http://d" None] Samples.three_rows).2 in
  queue w'
  = [DeferredDelete [0%nat]; DeferredDelete [1%nat]; DeferredDelete [2%nat]]
  ∧ widget_image_label <$> news_widgets w' = [3%nat].
Proof.
  destruct (display_news_replaces_rows Samples.quiet
              [Samples.item "a" "http://a" None;
               Samples.item "b" "http://b" None; Samples.item "c" "" None]
              boot)
    as (_ & _ & _ & Hthree).
  { intros l [lb Hl]. simpl in Hl. by rewrite lookup_empty in Hl. }
  destruct (display_news_replaces_rows Samples.quiet
              [Samples.item "d" "http://d" None] Samples.three_rows Hthree)
    as (Hq & Hws & _).
  cbv zeta. split; [exact Hq|]. rewrite Hws. reflexivity.
Defined.

(** ** Thumbnails fetched while the rows are built (PostNews.py) *)

Lemma requested_snoc w t e :
  requested (set_trace (λ tr, tr ++ [(t, e)]) w)
  = requested w ++ match e with NetGet url => [url] | _ => [] end.
Proof. unfold requested. simpl. rewrite omap_app. by destruct e. Qed.

Lemma PostNews_create_eq env item w :
  let url := default "" (item_image_url item) in
  ∃ w1,
    PostNews.create_news_widget env item w
    = (Ret (row_of item (next_label w)), w1)
    ∧ next_label w1 = S (next_label w)
    ∧ threads w1 = threads w
    ∧ (∀ l, l ≠ next_label w → labels w1 !! l = labels w !! l)
    ∧ requested w1 = requested w ++ option_list (thumbnail_url item)
    ∧ labels w1 !! next_label w
      = Some
          (if truthy_opt (item_image_url item) then
             match requests_get env (clock w) url with
             | Ret response =>
                 if status_code response =? 200 then
                   {| lb_content :=
                        Pixmap (scaled (loadFromData env (content response))
                                  100 100);
                      lb_dblclick := Some (item_link item);
                      lb_alive := true |}
                 else {| lb_content := NoContent; lb_dblclick := None;
                         lb_alive := true |}
             | Raise _ => {| lb_content := NoContent; lb_dblclick := None;
                             lb_alive := true |}
             end
           else {| lb_content := Text "No image available";
                   lb_dblclick := None; lb_alive := true |}).
Proof.
  cbv zeta. unfold PostNews.create_news_widget, thumbnail_url.
  erewrite bind_ret_l; [|apply QLabel_new_eq].
  destruct (truthy_opt (item_image_url item)) eqn:Hu.
  - destruct (item_image_url item) as [u|]; [|discriminate]. cbn [default].
    unfold try_except, net_get, perform, bind, modify, get, lift, print.
    simpl. destruct (requests_get env (clock w) u) as [resp|e]; simpl.
    + destruct (status_code resp =? 200); simpl.
      * unfold setPixmap, set_mouseDoubleClickEvent, QLabel_call, perform,
          modify, ret. simpl. rewrite lookup_insert_eq. simpl.
        eexists. split; [reflexivity|]. simpl. repeat split; try done.
        -- intros l Hl. rewrite lookup_alter_ne by done.
           by rewrite !lookup_insert_ne.
        -- unfold requested. simpl. by rewrite omap_app.
        -- rewrite lookup_alter_eq, lookup_insert_eq. done.
      * eexists. split; [reflexivity|]. simpl. repeat split; try done.
        -- intros l Hl. by rewrite !lookup_insert_ne.
        -- unfold requested. simpl.
           rewrite !omap_app. simpl. by rewrite app_nil_r.
        -- by rewrite lookup_insert_eq.
    + eexists. split; [reflexivity|]. simpl. repeat split; try done.
      * intros l Hl. by rewrite !lookup_insert_ne.
      * unfold requested. simpl.
        rewrite !omap_app. simpl. by rewrite app_nil_r.
      * by rewrite lookup_insert_eq.
  - erewrite bind_ret_l.
    2:{ unfold setText. eapply QLabel_call_alive; simpl;
          [apply lookup_insert_eq|done]. }
    eexists. split; [reflexivity|]. simpl. repeat split; try done.
    + intros l Hl. by rewrite !lookup_insert_ne.
    + by rewrite app_nil_r.
    + by rewrite lookup_insert_eq.
Qed.

(** X9: what the image label of a row of PostNews.py shows.  Without a
    thumbnail URL: the text "No image available".  When the request raises
    or is answered with a status other than 200: nothing, neither text nor
    picture, and a double click on it does nothing.  With status 200: the
    decoded picture scaled into 100 by 100 (the null pixmap if the data does
    not decode), and a double click opens the link of the item. *)
Theorem PostNews_thumbnail (env : Env) (item : NewsItem) (w : World) :
  let url := default "" (item_image_url item) in
  let label := labels (PostNews.create_news_widget env item w).2
                 !! next_label w in
  (truthy_opt (item_image_url item) = false →
   label = Some {| lb_content := Text "No image available";
                   lb_dblclick := None; lb_alive := true |})
  ∧ (truthy_opt (item_image_url item) = true →
     (∃ e, requests_get env (clock w) url = Raise e)
     ∨ (∃ response, requests_get env (clock w) url = Ret response
                    ∧ status_code response ≠ 200) →
     label = Some {| lb_content := NoContent; lb_dblclick := None;
                     lb_alive := true |})
  ∧ (∀ response,
       truthy_opt (item_image_url item) = true →
       requests_get env (clock w) url = Ret response →
       status_code response = 200 →
       label = Some {| lb_content :=
                         Pixmap (scaled (loadFromData env (content response))
                                   100 100);
                       lb_dblclick := Some (item_link item);
                       lb_alive := true |}).
Proof.
  cbv zeta.
  destruct (PostNews_create_eq env item w) as (w1 & E & _ & _ & _ & _ & Hl).
  rewrite E. simpl. rewrite Hl. repeat split.
  - by intros ->.
  - intros -> [(e & ->)|(r & -> & Hs)]; [done|].
    by destruct (Z.eqb_spec (status_code r) 200).
  - intros r -> -> Hs. by rewrite Hs.
Qed.

Lemma PostNews_rows_requests env news_items : ∀ w,
  let w' := (for_each news_items
               (λ item,
                  let* news_widget := PostNews.create_news_widget env item in
                  modify (set_news_widgets (λ ws, ws ++ [news_widget]))) w).2 in
  requested w' = requested w ++ omap thumbnail_url news_items
  ∧ threads w' = threads w.
Proof.
  induction news_items as [|item items IH]; intros w; cbv zeta.
  - simpl. by rewrite app_nil_r.
  - destruct (PostNews_create_eq env item w)
      as (w1 & E1 & _ & Ht & _ & Hreq & _).
    cbn [for_each]. erewrite bind_ret_l.
    2:{ erewrite bind_ret_l; [|exact E1]. reflexivity. }
    set (w2 := set_news_widgets _ w1).
    destruct (IH w2) as (Hreq2 & Ht2). subst w2.
    rewrite Hreq2, Ht2. unfold requested at 1. simpl.
    fold (requested w1). rewrite Hreq, Ht, <- app_assoc.
    split; [|done]. f_equal. by destruct (thumbnail_url item).
Qed.

(** X10: [display_news] of PostNews.py makes one request per item that has
    a thumbnail URL, for that URL and in the order of the items, before it
    returns; it makes none for an item whose URL is [None] or empty, and it
    starts no thread. *)
Theorem PostNews_one_request_per_thumbnail (env : Env)
    (news_items : list NewsItem) (w : World) :
  let w' := (PostNews.display_news env news_items w).2 in
  requested w' = requested w ++ omap thumbnail_url news_items
  ∧ threads w' = threads w.
Proof.
  cbv zeta.
  pose proof (display_news_via_loop (λ w, (requested w, threads w))
                (PostNews.create_news_widget env) news_items w
                ltac:(done) ltac:(done)) as H.
  cbv beta in H. injection H as Hr Ht.
  unfold PostNews.display_news. rewrite Hr, Ht.
  apply (PostNews_rows_requests env news_items
           (set_news_widgets (λ _, [])
              (set_queue (λ q, q ++ deletions (news_widgets w)) w))).
Qed.

(** ** The thumbnail of an entry *)

(** X11: the extraction of the thumbnail URL of an entry whose description
    parses.  Without a picture in the markup the URL is [None]; otherwise
    the first picture in document order decides alone: its [src] is the URL,
    and if it has no [src] the extraction raises KeyError, whatever
    pictures follow.  The world is not touched. *)
Theorem thumbnail_extraction (env : Env) (entry : Entry) (description : string)
    (soup : list node) (w : World) :
  entry_description entry = Ret description →
  BeautifulSoup env description = Ret soup →
  (first_img soup = None → extract_image_url env entry w = (Ret None, w))
  ∧ (∀ name attrs contents,
       first_img soup = Some (Tag name attrs contents) →
       name = "img"
       ∧ extract_image_url env entry w
         = (match attrs !! "src" with
            | Some src => Ret (Some src)
            | None => Raise (KeyError "src")
            end, w)).
Proof.
  intros Hd Hsoup. unfold first_img. rewrite <- find_first.
  unfold extract_image_url, bind, lift. rewrite Hd, Hsoup.
  split.
  - by intros ->.
  - intros name attrs contents Hfind. split.
    + by apply (find_is_tag _ _ _ Hfind).
    + rewrite Hfind. simpl. by destruct (attrs !! "src").
Qed.

Lemma thumbnail_extraction_witness :
  extract_image_url Samples.env2
    (Samples.entry "B" "http://b" Samples.without_src) boot
  = (Raise (KeyError "src"), boot).
Proof.
  destruct (thumbnail_extraction Samples.env2
              (Samples.entry "B" "http://b" Samples.without_src)
              Samples.without_src
              [Tag "p" ∅ [Tag "img" {["alt" := "x"]} []]] boot
              eq_refl eq_refl) as [_ H].
  destruct (H "img" {["alt" := "x"]} [] eq_refl) as [_ E].
  exact E.
Defined.

(** ** The loop over the entries *)

Lemma add_entry_passes v env entry acc w :
  entry_passes v env entry →
  ∃ item w',
    add_entry_of v env entry acc w = (Ret (acc ++ [item]), w')
    ∧ made_from env entry item.
Proof.
  intros ((t & Ht) & (l & Hl) & Hu).
  destruct v; simpl.
  - destruct (Hu eq_refl) as (u & Hurl).
    exists {| item_title := t; item_link := l; item_image_url := u |}, w.
    unfold PostNews.add_entry, bind, lift.
    rewrite Ht, Hl, extract_image_url_eq, Hurl.
    split; [done|]. unfold made_from. by rewrite Ht, Hl, Hurl.
  - destruct (PostNewsTrial_add_entry_eq env entry acc w t l Ht Hl)
      as (w' & E & _).
    eexists _, w'. split; [exact E|]. unfold made_from. by rewrite Ht, Hl.
Qed.

Lemma add_entry_raises v env entry acc w e :
  entry_raises v env entry e →
  ∃ w', add_entry_of v env entry acc w = (Raise e, w').
Proof.
  intros [Ht|[(t & Ht & Hl)|(-> & t & l & Ht & Hl & Hu)]].
  - exists w. destruct v; simpl;
      unfold PostNews.add_entry, PostNewsTrial.add_entry, bind, lift;
      by rewrite Ht.
  - exists w. destruct v; simpl;
      unfold PostNews.add_entry, PostNewsTrial.add_entry, bind, lift;
      by rewrite Ht, Hl.
  - exists w. by apply (PostNews_add_entry_raises env entry acc w t l e).
Qed.

Lemma for_fold_passes v env es : ∀ acc w,
  Forall (entry_passes v env) es →
  ∃ new w',
    for_fold es acc (add_entry_of v env) w = (Ret (acc ++ new), w')
    ∧ Forall2 (made_from env) es new.
Proof.
  induction es as [|entry es IH]; intros acc w Hes.
  - exists [], w. simpl. rewrite app_nil_r. split; [done|constructor].
  - apply Forall_cons in Hes as [He Hes].
    destruct (add_entry_passes v env entry acc w He) as (item & w1 & E1 & Hi).
    destruct (IH (acc ++ [item]) w1 Hes) as (new & w2 & E2 & Hnew).
    exists (item :: new), w2. cbn [for_fold].
    erewrite bind_ret_l; [|exact E1]. rewrite E2, <- app_assoc.
    split; [done|]. by constructor.
Qed.

Lemma for_fold_raises v env pre bad post e : ∀ acc w,
  Forall (entry_passes v env) pre →
  entry_raises v env bad e →
  ∃ w', for_fold (pre ++ bad :: post) acc (add_entry_of v env) w
        = (Raise e, w').
Proof.
  induction pre as [|entry pre IH]; intros acc w Hpre Hbad.
  - destruct (add_entry_raises v env bad acc w e Hbad) as (w' & E).
    exists w'. cbn [app for_fold]. unfold bind. by rewrite E.
  - apply Forall_cons in Hpre as [He Hpre].
    destruct (add_entry_passes v env entry acc w He) as (item & w1 & E1 & _).
    destruct (IH (acc ++ [item]) w1 Hpre Hbad) as (w' & E).
    exists w'. cbn [app for_fold]. erewrite bind_ret_l; [|exact E1]. exact E.
Qed.

(** What [run] emits, read off the outcome of the loop. *)
Lemma run_emits v env w feed :
  feedparser_parse env (clock w) FEED_URL = Ret feed →
  emitted (FetchNewsThread_run_of v env) w
  = [NewsFetched
       match (for_fold (entries feed) [] (add_entry_of v env)
                (set_clock (S (clock w))
                   (set_trace
                      (λ tr, tr ++ [(running_on w, NetFeed FEED_URL)]) w))).1
       with
       | Ret news_items => news_items
       | Raise e => [item_of_error e]
       end].
Proof.
  intros Hfeed.
  assert (E : FetchNewsThread_run_of v env
              = FetchNewsThread_run env (add_entry_of v env))
    by (by destruct v).
  rewrite E. unfold emitted, FetchNewsThread_run, try_except.
  rewrite fetch_body_eq. cbv zeta. rewrite Hfeed.
  set (w0 := set_clock _ _).
  destruct (for_fold_add (add_entry_of v env) (adds_one_of v env)
              (entries feed) [] w0) as [Hq _].
  destruct (for_fold (entries feed) [] (add_entry_of v env) w0)
    as [[items|e] w1]; simpl in *; rewrite Hq; by rewrite drop_app_length.
Qed.

(** X12: a feed whose entries all pass (title and link present, and in
    PostNews.py no extraction raises) gives one item per entry, in the order
    of the feed: the title and the link of the entry and the thumbnail URL
    extracted from its description.  In PostNewsTrial.py an entry whose
    extraction raises passes too, with no thumbnail. *)
Theorem one_item_per_entry (v : variant) (env : Env) (w : World) (feed : Feed) :
  feedparser_parse env (clock w) FEED_URL = Ret feed →
  Forall (entry_passes v env) (entries feed) →
  ∃ news_items,
    emitted (FetchNewsThread_run_of v env) w = [NewsFetched news_items]
    ∧ Forall2 (made_from env) (entries feed) news_items.
Proof.
  intros Hfeed Hes. rewrite (run_emits v env w feed Hfeed).
  set (w0 := set_clock _ _).
  destruct (for_fold_passes v env (entries feed) [] w0 Hes)
    as (new & w' & E & Hnew).
  rewrite E. eauto.
Qed.

Lemma one_item_per_entry_witness :
  ∃ news_items,
    emitted (FetchNewsThread_run_of PostNewsTrial_py Samples.env2) boot
    = [NewsFetched news_items]
    ∧ Forall2 (made_from Samples.env2) (entries Samples.feed2) news_items.
Proof.
  apply (one_item_per_entry PostNewsTrial_py Samples.env2 boot Samples.feed2).
  - reflexivity.
  - repeat constructor; simpl; eauto; discriminate.
Defined.

(** X13: the first entry whose iteration raises decides the batch.  When
    the entries before it pass and its own iteration raises [e] (no title,
    no link, or in PostNews.py an extraction that raises), [run] emits the
    single item made from [e]: the items of the entries before it are
    dropped and the entries after it are not looked at. *)
Theorem first_failing_entry_aborts (v : variant) (env : Env) (w : World)
    (feed : Feed) (pre post : list Entry) (bad : Entry) (e : exn) :
  feedparser_parse env (clock w) FEED_URL = Ret feed →
  entries feed = pre ++ bad :: post →
  Forall (entry_passes v env) pre →
  entry_raises v env bad e →
  emitted (FetchNewsThread_run_of v env) w = [NewsFetched [item_of_error e]].
Proof.
  intros Hfeed Hes Hpre Hbad. rewrite (run_emits v env w feed Hfeed), Hes.
  set (w0 := set_clock _ _).
  destruct (for_fold_raises v env pre bad post e [] w0 Hpre Hbad) as (w' & E).
  by rewrite E.
Qed.

Lemma first_failing_entry_aborts_witness :
  emitted (FetchNewsThread_run_of PostNewsTrial_py
             (Samples.env_of
                (Ret {| entries :=
                          [Samples.entry "A" "http://a" Samples.with_src;
                           {| entry_title := Ret "B";
                              entry_link :=
                                Raise (Exception "AttributeError"
                                         "object has no attribute 'link'");
                              entry_description := Ret Samples.no_img |}] |})
                Samples.ok_200 Samples.parse)) boot
  = [NewsFetched
       [item_of_error
          (Exception "AttributeError" "object has no attribute 'link'")]].
Proof.
  eapply (first_failing_entry_aborts PostNewsTrial_py _ boot _
            [Samples.entry "A" "http://a" Samples.with_src] []).
  - reflexivity.
  - reflexivity.
  - repeat constructor; simpl; eauto; discriminate.
  - right. left. exists "B". split; reflexivity.
Defined.

(** ** What the worker threads leave alone *)

Lemma fetch_run_ui_state v env :
  preserves (unchanged ui_state) (FetchNewsThread_run_of v env).
Proof.
  destruct v; unfold FetchNewsThread_run_of, PostNews.FetchNewsThread_run,
    PostNewsTrial.FetchNewsThread_run, FetchNewsThread_run, fetch_body,
    net_feed, PostNews.add_entry, PostNewsTrial.add_entry, extract_image_url,
    print, perform, post; leave_unchanged.
Qed.

Lemma load_run_ui_state env image_url link label :
  preserves (unchanged ui_state)
    (PostNewsTrial.LoadImageThread_run env image_url link label).
Proof.
  unfold PostNewsTrial.LoadImageThread_run, net_get, print, perform, post.
  leave_unchanged.
Qed.

(** X14: the [run] of a feed thread, in either file, and the [run] of an
    image thread change neither the rows, nor the selection, nor any image
    label, nor the started threads: a worker only records what it did and
    posts its result. *)
Theorem workers_leave_ui_state (v : variant) (env : Env)
    (image_url : option string) (link : string) (label : nat) (w : World) :
  ui_state (FetchNewsThread_run_of v env w).2 = ui_state w
  ∧ ui_state (PostNewsTrial.LoadImageThread_run env image_url link label w).2
    = ui_state w.
Proof.
  split; [apply fetch_run_ui_state|apply load_run_ui_state].
Qed.

(** X15: an image thread makes no request when its URL is [None] or the
    empty string, and otherwise one request, for that URL; it never tries
    again. *)
Theorem LoadImageThread_requests (env : Env) (image_url : option string)
    (link : string) (label : nat) (w : World) :
  requested (PostNewsTrial.LoadImageThread_run env image_url link label w).2
  = requested w
    ++ (if truthy_opt image_url then [default "" image_url] else []).
Proof.
  unfold PostNewsTrial.LoadImageThread_run.
  destruct (truthy_opt image_url).
  - unfold try_except, net_get, perform, bind, modify, get, lift, print, post.
    simpl. destruct (requests_get env (clock w) _) as [r|e]; simpl.
    + destruct (status_code r =? 200); simpl; unfold requested; simpl;
        rewrite ?omap_app; simpl; by rewrite ?app_nil_r.
    + unfold requested; simpl. rewrite !omap_app. simpl.
      by rewrite app_nil_r.
  - simpl. by rewrite app_nil_r.
Qed.

(** ** An image result for a row that was deleted *)

(** X16: once the deferred deletion of a row has been handled, the image
    result for its label is not applied: [set_image] raises the
    RuntimeError PyQt raises for a deleted object, on its first call on the
    label, whether the pixmap is null or not, and the world is as it was. *)
Theorem result_for_deleted_row_raises (label : nat) (lb : QLabel)
    (image : QPixmap) (link : string) (w : World) :
  labels w !! label = Some lb →
  ∃ w1,
    PostNewsTrial.handle (DeferredDelete [label]) w = (Ret tt, w1)
    ∧ PostNewsTrial.handle (ImageLoaded label image link) w1
      = (Raise (RuntimeError "QLabel"), w1).
Proof.
  intros Hl. eexists. split; [reflexivity|].
  unfold PostNewsTrial.handle, handle, PostNewsTrial.set_image.
  set (w1 := set_labels _ w).
  assert (Hdead : ∀ f, QLabel_call label f w1 = (Raise (RuntimeError "QLabel"), w1)).
  { intros f. unfold QLabel_call. subst w1. simpl.
    rewrite lookup_alter_eq, Hl. reflexivity. }
  destruct (negb (isNull image)).
  - unfold bind, setPixmap. by rewrite Hdead.
  - unfold setText. apply Hdead.
Qed.

Lemma result_for_deleted_row_raises_witness :
  ∃ w1,
    PostNewsTrial.handle (DeferredDelete [0%nat]) Samples.one_row = (Ret tt, w1)
    ∧ PostNewsTrial.handle (ImageLoaded 0 QPixmap_null "http://a") w1
      = (Raise (RuntimeError "QLabel"), w1).
Proof.
  apply (result_for_deleted_row_raises 0 loading_label QPixmap_null "http://a"
           Samples.one_row).
  vm_compute. reflexivity.
Defined.

(** ** A double click on the picture *)

(** X17: a row of PostNewsTrial.py whose image label is alive and has no
    double-click handler yet.  After a picture was delivered for it, a
    double click on the picture opens the link that came with the picture,
    once, unless that link is empty; after a null pixmap was delivered, a
    double click on the label does nothing. *)
Theorem image_double_click (w : World) (row : nat) (widget : QWidget)
    (lb : QLabel) (pw ph : positive) (link : string) :
  news_widgets w !! row = Some widget →
  labels w !! widget_image_label widget = Some lb →
  lb_alive lb = true →
  lb_dblclick lb = None →
  (∃ w1,
     PostNewsTrial.handle
       (ImageLoaded (widget_image_label widget)
          {| pm_width := Z.pos pw; pm_height := Z.pos ph |} link) w
     = (Ret tt, w1)
     ∧ PostNewsTrial.handle (ImageDoubleClick row) w1
       = (Ret tt,
          if decide (link = "") then w1
          else set_trace (λ tr, tr ++ [(running_on w1, BrowserOpen link)]) w1))
  ∧ (∃ w1,
       PostNewsTrial.handle
         (ImageLoaded (widget_image_label widget) QPixmap_null link) w
       = (Ret tt, w1)
       ∧ PostNewsTrial.handle (ImageDoubleClick row) w1 = (Ret tt, w1)).
Proof.
  intros Hrow Hl Ha Hd. split.
  - eexists. split.
    + apply (set_image_picture _ pw ph link w lb Hl Ha).
    + unfold PostNewsTrial.handle.
      erewrite handle_image_double_click;
        [apply open_link_eq|exact Hrow|simpl; apply lookup_insert_eq|done].
  - eexists. split.
    + apply (set_image_null _ link w lb Hl Ha).
    + unfold PostNewsTrial.handle, handle.
      erewrite bind_ret_l; [|reflexivity]. erewrite bind_ret_l; [|reflexivity].
      cbn [news_widgets labels set_labels]. rewrite Hrow, lookup_insert_eq.
      simpl. by rewrite Hd.
Qed.

Lemma image_double_click_witness :
  (∃ w1,
     PostNewsTrial.handle
       (ImageLoaded 0 {| pm_width := 640; pm_height := 480 |} "http://a")
       Samples.one_row = (Ret tt, w1)
     ∧ PostNewsTrial.handle (ImageDoubleClick 0) w1
       = (Ret tt,
          set_trace (λ tr, tr ++ [(running_on w1, BrowserOpen "http://a")]) w1))
  ∧ (∃ w1,
       PostNewsTrial.handle (ImageLoaded 0 QPixmap_null "http://a")
         Samples.one_row = (Ret tt, w1)
       ∧ PostNewsTrial.handle (ImageDoubleClick 0) w1 = (Ret tt, w1)).
Proof.
  apply (image_double_click Samples.one_row 0
           (highlighted 0 0 (row_of (Samples.item "A" "http://a"
                                       (Some "http://i/1.jpg")) 0))
           loading_label 640 480 "http://a").
  - vm_compute. reflexivity.
  - vm_compute. reflexivity.
  - reflexivity.
  - reflexivity.
Defined.

(** ** The except branch of the feed thread *)

(** X18: when the suite of the [try] in [run] raises, in either file,
    [run] itself returns normally and has emitted one list, which holds one
    item: its title is the text of the exception after a fixed prefix, its
    link is the empty string and it has no thumbnail URL. *)
Theorem error_item_when_suite_raises (v : variant) (env : Env)
    (w w1 : World) (e : exn) :
  fetch_body_of v env w = (Raise e, w1) →
  ∃ w' item,
    FetchNewsThread_run_of v env w = (Ret tt, w')
    ∧ emitted (FetchNewsThread_run_of v env) w = [NewsFetched [item]]
    ∧ item_title item = "Error fetching news: " +:+ str e
    ∧ item_link item = ""
    ∧ item_image_url item = None.
Proof.
  intros Hfail.
  destruct (fetch_run_cases_of v env w) as (items & w' & E & Hem & H).
  exists w', (item_of_error e). split; [exact E|].
  destruct H as [(e' & w2 & E' & ->)|(feed & w2 & E' & _)].
  - rewrite Hfail in E'. injection E' as <- <-. done.
  - rewrite Hfail in E'. discriminate.
Qed.

Lemma error_item_when_suite_raises_witness :
  ∃ w' item,
    FetchNewsThread_run_of PostNewsTrial_py Samples.untitled boot
    = (Ret tt, w')
    ∧ emitted (FetchNewsThread_run_of PostNewsTrial_py Samples.untitled) boot
      = [NewsFetched [item]]
    ∧ item_title item
      = "Error fetching news: object has no attribute 'title'"
    ∧ item_link item = ""
    ∧ item_image_url item = None.
Proof.
  eapply (error_item_when_suite_raises PostNewsTrial_py Samples.untitled boot _
            (Exception "AttributeError" "object has no attribute 'title'")).
  reflexivity.
Defined.

(** * Every execution of the program *)

(** The program is [main]: [initUI], then whatever the scheduler does with
    the threads that were started, the queue of the interaction thread and
    the user. *)





(** ** PostNewsTrial.py: no row is ever shown *)








(** ** PostNews.py: one batch *)







